(** * WebbPSF-Roman tutorial notebook: the notebook as a program over an
      external library

    The repository holds one Jupyter notebook,
    [notebooks/WebbPSF-Roman_Tutorial.ipynb].  Its code cells are
    straight-line Python: every statement imports a module, reads an
    attribute, stores an item, or calls a function of the external
    libraries (webbpsf, matplotlib, astropy).  None of that library code
    belongs to the repository, so the library is a parameter here: a
    function from an operation and the state of the outside world to a
    result and a new world.  The notebook itself is embedded statement by
    statement as a tree of operations whose continuations receive the
    values the library hands back.

    A run is "Run All" in a fresh session: the code cells execute in file
    order and the first exception stops the run.  The session keeps the
    notebook's variables, a log of the library operations issued with
    their answers, and a log of the assignments made.  What IPython does
    with the value of an expression statement (display, [_]) is left
    out: the notebook never reads it back. *)

From Stdlib Require Import ZArith String List PrimFloat.
From stdpp Require Import base option list gmap strings.

Local Open Scope string_scope.
Local Open Scope list_scope.

(** ** Python values that appear in the notebook *)

(** Literals are kept as the source writes them; every library object
    (module, instrument, HDUList, function result) is an opaque
    reference. *)
#[warnings="-register-all"]
Inductive Value :=
| VNone
| VBool (b : bool)
| VInt (z : Z)
| VFloat (f : float)
| VStr (s : string)
| VTuple (items : list Value)
| VRef (r : positive).

(** ** Operations the notebook performs on the outside world *)

(** [ECall recv name args kwargs] is the Python call
    [recv.name(args, **kwargs)]: attribute [name] of [recv] is looked up
    and called in one step, after the argument variables have been read.
    Python looks the attribute up before it reads the arguments; the two
    orders tell apart only a cell run where the lookup fails and an
    argument variable is unbound at once (Python raises the AttributeError,
    a statement here the NameError), which no run from a fresh session
    meets.  [EImport m] is [import m] and yields the
    object Python binds for it (the top-level package); [EImportFrom m n]
    is [from m import n]. *)
Inductive Event :=
| EMagic (line : string)
| EImport (module : string)
| EImportFrom (module name : string)
| EGetAttr (obj : Value) (attr : string)
| ESetAttr (obj : Value) (attr : string) (v : Value)
| ESetItem (obj key v : Value)
| ECall (recv : Value) (name : string) (args : list Value)
        (kwargs : list (string * Value)).

(** What the library answers: a value, or a raised exception object. *)
Inductive Result :=
| Returns (v : Value)
| Raises (exc : Value).

(** The external libraries, as far as the notebook can observe them. *)
Definition Library (World : Type) : Type := Event -> World -> Result * World.

(** ** Statements *)

(** A statement is a tree: library operations and reads of notebook
    variables bind the value they produce in the continuation, an
    assignment to a notebook variable continues with the rest. *)
Inductive Prog :=
| Skip
| Lib (ev : Event) (k : Value -> Prog)
| Load (x : string) (k : Value -> Prog)
| Store (x : string) (v : Value) (k : Prog).

(** A notebook is its list of cells; only code cells execute. *)
Inductive Cell :=
| Markdown
| Code (stmts : list Prog).

(** ** The notebook, cell by cell *)

(** An expression statement: call, and bind the result to no notebook
    variable. *)
Definition call_ (recv : Value) (name : string) (args : list Value)
    (kwargs : list (string * Value)) : Prog :=
  Lib (ECall recv name args kwargs) (fun _ => Skip).

(** [matplotlib.rcParams[key] = v] *)
Definition set_rcParam (key : string) (v : Value) : Prog :=
  Load "matplotlib" (fun m =>
  Lib (EGetAttr m "rcParams") (fun rc =>
  Lib (ESetItem rc (VStr key) v) (fun _ => Skip))).

(** Cell 1 (source lines 26-32):
    [%matplotlib inline],
    [import matplotlib],
    [matplotlib.rcParams['figure.figsize'] = (16, 6)],
    [matplotlib.rcParams['image.interpolation'] = 'nearest'],
    [from matplotlib import pyplot as plt],
    [import webbpsf],
    [import webbpsf.roman] (which binds the package name [webbpsf]). *)
Definition cell_imports : list Prog :=
  [ Lib (EMagic "matplotlib inline") (fun _ => Skip);
    Lib (EImport "matplotlib") (fun m => Store "matplotlib" m Skip);
    set_rcParam "figure.figsize" (VTuple [VInt 16; VInt 6]);
    set_rcParam "image.interpolation" (VStr "nearest");
    Lib (EImportFrom "matplotlib" "pyplot") (fun p => Store "plt" p Skip);
    Lib (EImport "webbpsf") (fun m => Store "webbpsf" m Skip);
    Lib (EImport "webbpsf.roman") (fun m => Store "webbpsf" m Skip) ].

(** Cell 3 (line 48): [webbpsf.setup_logging()] *)
Definition cell_logging : list Prog :=
  [ Load "webbpsf" (fun w => call_ w "setup_logging" [] []) ].

(** Cell 6 (line 77): [wfi = webbpsf.roman.WFI()] *)
Definition cell_construct : list Prog :=
  [ Load "webbpsf" (fun w =>
    Lib (EGetAttr w "roman") (fun roman =>
    Lib (ECall roman "WFI" [] []) (fun inst =>
    Store "wfi" inst Skip))) ].

(** Cell 8 (line 95): [webbpsf.jupyter_gui.show_notebook_interface_wfi(wfi)] *)
Definition cell_widget : list Prog :=
  [ Load "webbpsf" (fun w =>
    Lib (EGetAttr w "jupyter_gui") (fun gui =>
    Load "wfi" (fun inst =>
    call_ gui "show_notebook_interface_wfi" [inst] []))) ].

(** The Python literal [1.2e-6], a binary64 float. *)
#[warnings="-inexact-float"]
Definition wavelength : float := 1.2e-6%float.

(** Cell 11 (line 140):
    [mono_psf = wfi.calc_psf(monochromatic=1.2e-6, display=True)] *)
Definition calc_psf_kwargs : list (string * Value) :=
  [ ("monochromatic", VFloat wavelength); ("display", VBool true) ].

Definition cell_calc_psf : list Prog :=
  [ Load "wfi" (fun inst =>
    Lib (ECall inst "calc_psf" [] calc_psf_kwargs) (fun psf =>
    Store "mono_psf" psf Skip)) ].

(** Cell 13 (line 156): [mono_psf.info()] *)
Definition cell_info : list Prog :=
  [ Load "mono_psf" (fun psf => call_ psf "info" [] []) ].

(** Cell 15 (line 172): [webbpsf.display_psf(mono_psf, ext='DET_SAMP')] *)
Definition cell_display_psf : list Prog :=
  [ Load "webbpsf" (fun w =>
    Load "mono_psf" (fun psf =>
    call_ w "display_psf" [psf] [("ext", VStr "DET_SAMP")])) ].

(** Cell 17 (lines 188-189): [plt.figure(figsize=(8, 6))] then
    [webbpsf.display_profiles(mono_psf)] *)
Definition cell_display_profiles : list Prog :=
  [ Load "plt" (fun plt =>
    call_ plt "figure" [] [("figsize", VTuple [VInt 8; VInt 6])]);
    Load "webbpsf" (fun w =>
    Load "mono_psf" (fun psf =>
    call_ w "display_profiles" [psf] [])) ].

(** Cell 19 (line 205):
    [mono_psf.writeto('./mono_psf_1.2um.fits', clobber=True)] *)
Definition fits_path : string := "./mono_psf_1.2um.fits".

Definition cell_writeto : list Prog :=
  [ Load "mono_psf" (fun psf =>
    call_ psf "writeto" [VStr fits_path] [("clobber", VBool true)]) ].

(** The twenty-one cells in file order, numbered from 0 (cell 0 is the
    title text); the markdown cells carry no code. *)
Definition notebook : list Cell :=
  [ Markdown;
    Code cell_imports;
    Markdown;
    Code cell_logging;
    Markdown;
    Markdown;
    Code cell_construct;
    Markdown;
    Code cell_widget;
    Markdown;
    Markdown;
    Code cell_calc_psf;
    Markdown;
    Code cell_info;
    Markdown;
    Code cell_display_psf;
    Markdown;
    Code cell_display_profiles;
    Markdown;
    Code cell_writeto;
    Markdown ].

(** ** Running the notebook *)

Inductive Exn :=
| LibError (exc : Value)
| NameError (x : string).

Inductive Outcome :=
| Finished
| Raised (e : Exn).

(** One library operation as it happened: the cell that issued it, the
    operation, the library's answer and the world it left behind. *)
Record Entry (World : Type) := MkEntry {
  cell : nat;
  ev : Event;
  res : Result;
  post : World
}.
Arguments MkEntry {World} _ _ _ _.
Arguments cell {World} _.
Arguments ev {World} _.
Arguments res {World} _.
Arguments post {World} _.

(** The interactive session: the notebook's variables, the outside world,
    the log of library operations so far, and the assignments to notebook
    variables so far (cell, name, value). *)
Record Kernel (World : Type) := MkKernel {
  ns : gmap string Value;
  world : World;
  log : list (Entry World);
  binds : list (nat * string * Value)
}.
Arguments MkKernel {World} _ _ _ _.
Arguments ns {World} _.
Arguments world {World} _.
Arguments log {World} _.
Arguments binds {World} _.

Definition fresh_kernel {World : Type} (w : World) : Kernel World :=
  MkKernel ∅ w [] [].

Section Run.
Context {World : Type} (lib : Library World).

(** A statement of cell [c].  An exception ends it at once; what was done
    before stays done. *)
Fixpoint run_stmt (c : nat) (p : Prog) (k : Kernel World)
    : Outcome * Kernel World :=
  match p with
  | Skip => (Finished, k)
  | Lib e cont =>
      let '(r, w') := lib e (world k) in
      let k' := MkKernel (ns k) w' (log k ++ [MkEntry c e r w']) (binds k) in
      match r with
      | Returns v => run_stmt c (cont v) k'
      | Raises exc => (Raised (LibError exc), k')
      end
  | Load x cont =>
      match ns k !! x with
      | Some v => run_stmt c (cont v) k
      | None => (Raised (NameError x), k)
      end
  | Store x v cont =>
      run_stmt c cont
        (MkKernel (<[x:=v]> (ns k)) (world k) (log k) (binds k ++ [(c, x, v)]))
  end.

(** The statements of one cell, top to bottom. *)
Fixpoint run_stmts (c : nat) (ps : list Prog) (k : Kernel World)
    : Outcome * Kernel World :=
  match ps with
  | [] => (Finished, k)
  | p :: rest =>
      match run_stmt c p k with
      | (Finished, k') => run_stmts c rest k'
      | (Raised e, k') => (Raised e, k')
      end
  end.

Definition run_cell (c : nat) (cl : Cell) (k : Kernel World)
    : Outcome * Kernel World :=
  match cl with
  | Markdown => (Finished, k)
  | Code ps => run_stmts c ps k
  end.

(** "Run All" from cell index [c]: cells in file order, stopping at the
    first cell that raises. *)
Fixpoint run_cells (c : nat) (cells : list Cell) (k : Kernel World)
    : Outcome * Kernel World :=
  match cells with
  | [] => (Finished, k)
  | cl :: rest =>
      match run_cell c cl k with
      | (Finished, k') => run_cells (S c) rest k'
      | (Raised e, k') => (Raised e, k')
      end
  end.

Definition run_all (cells : list Cell) (w : World) : Outcome * Kernel World :=
  run_cells 0 cells (fresh_kernel w).

(** The user runs cell [i] of the notebook by hand in the session [k]. *)
Definition run_nth (i : nat) (cells : list Cell) (k : Kernel World)
    : Outcome * Kernel World :=
  match cells !! i with
  | Some cl => run_cell i cl k
  | None => (Finished, k)
  end.

(** ... and runs it [n] times in a row. *)
Fixpoint rerun (n i : nat) (cells : list Cell) (k : Kernel World)
    : Outcome * Kernel World :=
  match n with
  | O => (Finished, k)
  | S n' =>
      match run_nth i cells k with
      | (Finished, k') => rerun n' i cells k'
      | (Raised e, k') => (Raised e, k')
      end
  end.

End Run.

(** ** Reading a log *)

(** A log is a chain from world [w] when every entry holds the library's
    answer in the world the previous entry left. *)
Fixpoint chain {World : Type} (lib : Library World) (w : World)
    (l : list (Entry World)) : Prop :=
  match l with
  | [] => True
  | en :: rest => lib (ev en) w = (res en, post en) /\ chain lib (post en) rest
  end.

(** The world at the end of a log that started in [w]. *)
Definition end_world {World : Type} (w : World) (l : list (Entry World))
    : World :=
  foldl (fun _ en => post en) w l.

Definition returned {World : Type} (en : Entry World) : Prop :=
  match res en with Returns _ => True | Raises _ => False end.

(** What a log looks like for each outcome: a library exception is the
    answer of the last operation and of no other. *)
Definition clean {World : Type} (o : Outcome) (l : list (Entry World)) : Prop :=
  match o with
  | Raised (LibError x) =>
      exists before last,
        l = before ++ [last] /\ Forall returned before /\ res last = Raises x
  | _ => Forall returned l
  end.

(** Where and to what the variable [x] was assigned in a session. *)
Definition bindings {World : Type} (x : string) (k : Kernel World)
    : list (nat * Value) :=
  omap (fun b : nat * string * Value =>
          if String.eqb b.1.2 x then Some (b.1.1, b.2) else None)
       (binds k).

(** The name of the function or method an operation calls. *)
Definition called (e : Event) : option string :=
  match e with
  | ECall _ name _ _ => Some name
  | _ => None
  end.

Definition calls (name : string) {World : Type} (en : Entry World) : bool :=
  bool_decide (called (ev en) = Some name).

(** The calls of [name] in a log, the first of them, and what the log holds
    after the first. *)
Definition calls_named {World : Type} (name : string) (l : list (Entry World))
    : list (Entry World) :=
  List.filter (calls name) l.

Definition find_call {World : Type} (name : string) (l : list (Entry World))
    : option (Entry World) :=
  List.find (calls name) l.

Fixpoint after_call {World : Type} (name : string) (l : list (Entry World))
    : list (Entry World) :=
  match l with
  | [] => []
  | en :: rest => if calls name en then rest else after_call name rest
  end.

(** Attribute reads and calls, as opposed to imports and assignments. *)
Definition is_read_or_call (e : Event) : bool :=
  match e with
  | EGetAttr _ _ | ECall _ _ _ _ => true
  | _ => false
  end.

(** How the two uses of the instrument receive it: the widget call as its
    only argument, [calc_psf] as its receiver. *)
Definition receives (inst : Value) (e : Event) : Prop :=
  match e with
  | ECall recv name args _ =>
      (name = "show_notebook_interface_wfi" -> args = [inst]) /\
      (name = "calc_psf" -> recv = inst)
  | _ => True
  end.

(** The path a save call writes to: [hdul.writeto(path, ...)]. *)
Definition save_path (e : Event) : option string :=
  match e with
  | ECall _ name args _ =>
      if String.eqb name "writeto"
      then match args with VStr p :: _ => Some p | _ => None end
      else None
  | _ => None
  end.

(** An operation that saves nothing, or saves the notebook's FITS file. *)
Definition saves_only_fits (e : Event) : Prop :=
  save_path e = None \/ save_path e = Some fits_path.

(** Inspection and plotting calls between [calc_psf] and [writeto]. *)
Definition is_display_call (e : Event) : bool :=
  match called e with
  | Some name =>
      bool_decide
        (name ∈ ["info"; "display_psf"; "figure"; "display_profiles"])
  | None => false
  end.

(** An operation with the run-time values erased. *)
Inductive Op :=
| OMagic (line : string)
| OImport (module : string)
| OImportFrom (module name : string)
| OGetAttr (attr : string)
| OSetAttr (attr : string)
| OSetItem
| OCall (name : string).

Definition op_of (e : Event) : Op :=
  match e with
  | EMagic l => OMagic l
  | EImport m => OImport m
  | EImportFrom m n => OImportFrom m n
  | EGetAttr _ a => OGetAttr a
  | ESetAttr _ a _ => OSetAttr a
  | ESetItem _ _ _ => OSetItem
  | ECall _ n _ _ => OCall n
  end.

#[global] Instance Op_eq_dec : EqDecision Op.
Proof. solve_decision. Defined.

Definition tag {World : Type} (en : Entry World) : nat * Op :=
  (cell en, op_of (ev en)).

(** Every library operation of the notebook with the cell it sits in, in
    source order. *)
Definition notebook_ops : list (nat * Op) :=
  [ (1, OMagic "matplotlib inline");
    (1, OImport "matplotlib");
    (1, OGetAttr "rcParams"); (1, OSetItem);
    (1, OGetAttr "rcParams"); (1, OSetItem);
    (1, OImportFrom "matplotlib" "pyplot");
    (1, OImport "webbpsf");
    (1, OImport "webbpsf.roman");
    (3, OCall "setup_logging");
    (6, OGetAttr "roman"); (6, OCall "WFI");
    (8, OGetAttr "jupyter_gui"); (8, OCall "show_notebook_interface_wfi");
    (11, OCall "calc_psf");
    (13, OCall "info");
    (15, OCall "display_psf");
    (17, OCall "figure"); (17, OCall "display_profiles");
    (19, OCall "writeto") ].

(** The steps the tutorial walks through. *)
Inductive Step :=
| StepImport | StepConstruct | StepWidget | StepCalcPsf
| StepInfo | StepDisplayPsf | StepDisplayProfiles | StepWriteto.

Definition step_of (o : nat * Op) : option Step :=
  match o.2 with
  | OImport "webbpsf" => Some StepImport
  | OCall "WFI" => Some StepConstruct
  | OCall "show_notebook_interface_wfi" => Some StepWidget
  | OCall "calc_psf" => Some StepCalcPsf
  | OCall "info" => Some StepInfo
  | OCall "display_psf" => Some StepDisplayPsf
  | OCall "display_profiles" => Some StepDisplayProfiles
  | OCall "writeto" => Some StepWriteto
  | _ => None
  end.

(** The notebook with cell [i] left out of the run. *)
Definition skip_cell (i : nat) (cells : list Cell) : list Cell :=
  <[i := Markdown]> cells.

(** An operation of the widget cell. *)
Definition is_widget_op (e : Event) : bool :=
  match e with
  | EGetAttr _ attr => String.eqb attr "jupyter_gui"
  | ECall _ name _ _ => String.eqb name "show_notebook_interface_wfi"
  | _ => false
  end.

(** What the notebook can see of an operation: where it was issued, what
    it was, and what came back. *)
Definition answer {World : Type} (en : Entry World) : nat * Event * Result :=
  (cell en, ev en, res en).

(** Two sessions agree when they bind the same names to the same values
    and their worlds are related by [sim]. *)
Definition agree {World : Type} (sim : World -> World -> Prop)
    (k1 k2 : Kernel World) : Prop :=
  ns k1 = ns k2 /\ binds k1 = binds k2 /\ sim (world k1) (world k2).

(** Two runs, started in sessions [k1] and [k2], are in step when they end
    the same way, in sessions that agree, having received the same answers
    to the same operations. *)
Definition in_step {World : Type} (sim : World -> World -> Prop)
    (r1 r2 : Outcome * Kernel World) (k1 k2 : Kernel World) : Prop :=
  r1.1 = r2.1 /\ agree sim r1.2 r2.2 /\
  exists n1 n2,
    log r1.2 = log k1 ++ n1 /\ log r2.2 = log k2 ++ n2 /\
    map answer n1 = map answer n2.

(** Every library operation a statement can issue satisfies [P], whatever
    values the library hands back. *)
Fixpoint events_sat (P : Event -> Prop) (p : Prog) : Prop :=
  match p with
  | Skip => True
  | Lib e cont => P e /\ forall v, events_sat P (cont v)
  | Load _ cont => forall v, events_sat P (cont v)
  | Store _ _ cont => events_sat P cont
  end.

Definition cell_sat (P : Event -> Prop) (cl : Cell) : Prop :=
  match cl with
  | Markdown => True
  | Code ps => Forall (events_sat P) ps
  end.

(** Whether a keyword argument is passed as [True]. *)
Definition kw_true (key : string) (kwargs : list (string * Value)) : bool :=
  existsb (fun kv => String.eqb kv.1 key &&
                     match kv.2 with VBool true => true | _ => false end)
          kwargs.

(** ** Cells run by hand *)

(** The variables a cell assigns, and the variables it reads without having
    assigned them itself, in the order it first reads them. *)
Definition writes (i : nat) : list string :=
  match i with
  | 1 => ["matplotlib"; "plt"; "webbpsf"]
  | 6 => ["wfi"]
  | 11 => ["mono_psf"]
  | _ => []
  end.

Definition needs (i : nat) : list string :=
  match i with
  | 3 | 6 => ["webbpsf"]
  | 8 => ["webbpsf"; "wfi"]
  | 11 => ["wfi"]
  | 13 | 19 => ["mono_psf"]
  | 15 => ["webbpsf"; "mono_psf"]
  | 17 => ["plt"; "webbpsf"; "mono_psf"]
  | _ => []
  end.

(** The library operations of cell [i], in source order. *)
Definition cell_ops (i : nat) : list (nat * Op) :=
  List.filter (fun o => Nat.eqb o.1 i) notebook_ops.

(** Every assignment a statement can make is to a variable satisfying
    [P], whatever values the library hands back. *)
Fixpoint stores_sat (P : string -> Prop) (p : Prog) : Prop :=
  match p with
  | Skip => True
  | Lib _ cont => forall v, stores_sat P (cont v)
  | Load _ cont => forall v, stores_sat P (cont v)
  | Store x _ cont => P x /\ stores_sat P cont
  end.

Definition cell_stores_sat (P : string -> Prop) (cl : Cell) : Prop :=
  match cl with
  | Markdown => True
  | Code ps => Forall (stores_sat P) ps
  end.

(** The calls of the cells that only log, inspect or plot. *)
Definition is_side_call (e : Event) : bool :=
  match called e with
  | Some name =>
      bool_decide
        (name ∈ ["setup_logging"; "info"; "display_psf"; "figure";
                 "display_profiles"])
  | None => false
  end.

(** The operations and the assignments of a run that finishes, given the
    values the library returned: the modules [mpl], [plt], [web0] (from
    [import webbpsf]) and [web] (from [import webbpsf.roman]), the two
    reads [rc1], [rc2] of [matplotlib.rcParams], the submodules [roman]
    and [gui], the instrument [inst] and the result [psf]. *)
Definition notebook_events (mpl rc1 rc2 plt web roman inst gui psf : Value)
    : list (nat * Event) :=
  [ (1, EMagic "matplotlib inline");
    (1, EImport "matplotlib");
    (1, EGetAttr mpl "rcParams");
    (1, ESetItem rc1 (VStr "figure.figsize") (VTuple [VInt 16; VInt 6]));
    (1, EGetAttr mpl "rcParams");
    (1, ESetItem rc2 (VStr "image.interpolation") (VStr "nearest"));
    (1, EImportFrom "matplotlib" "pyplot");
    (1, EImport "webbpsf");
    (1, EImport "webbpsf.roman");
    (3, ECall web "setup_logging" [] []);
    (6, EGetAttr web "roman");
    (6, ECall roman "WFI" [] []);
    (8, EGetAttr web "jupyter_gui");
    (8, ECall gui "show_notebook_interface_wfi" [inst] []);
    (11, ECall inst "calc_psf" [] calc_psf_kwargs);
    (13, ECall psf "info" [] []);
    (15, ECall web "display_psf" [psf] [("ext", VStr "DET_SAMP")]);
    (17, ECall plt "figure" [] [("figsize", VTuple [VInt 8; VInt 6])]);
    (17, ECall web "display_profiles" [psf] []);
    (19, ECall psf "writeto" [VStr fits_path] [("clobber", VBool true)]) ].

Definition notebook_binds (mpl plt web0 web inst psf : Value)
    : list (nat * string * Value) :=
  [ (1, "matplotlib", mpl); (1, "plt", plt);
    (1, "webbpsf", web0); (1, "webbpsf", web);
    (6, "wfi", inst); (11, "mono_psf", psf) ].

(** What each of these operations returned: the value named, or, where the
    notebook drops the result, some value. *)
Definition notebook_uses (mpl rc1 rc2 plt web0 web roman inst gui psf : Value)
    : list (option Value) :=
  [ None; Some mpl; Some rc1; None; Some rc2; None; Some plt; Some web0;
    Some web; None; Some roman; Some inst; Some gui; None; Some psf;
    None; None; None; None; None ].

Definition answered {World : Type} (en : Entry World) (r : option Value)
    : Prop :=
  match r with
  | Some v => res en = Returns v
  | None => returned en
  end.

(** The session [k] is the session [k0] on top of what the session [old]
    held: same world, the old log and assignments in front, and the old
    variables behind the new ones. *)
Definition on_top_of {World : Type} (old k k0 : Kernel World) : Prop :=
  world k = world k0 /\
  log k = log old ++ log k0 /\
  binds k = binds old ++ binds k0 /\
  ns k = ns k0 ∪ ns old.

(** ** A small concrete library

    A stand-in for webbpsf and astropy, used only to run the notebook on
    concrete inputs and to show that the library contracts assumed further
    down can be met; the theorems about the notebook hold for every
    library.  Modules and functions are one shared reference; [WFI()] and
    [calc_psf] allocate objects; [writeto] refuses to replace a file unless
    [clobber] is set. *)
Module Mock.

Definition Data : Type := list (string * (Z * Z)).

(** Objects by reference and files by path, newest first. *)
Record World := MkWorld {
  next : positive;
  instruments : list (positive * string);
  hduls : list (positive * Data);
  disk : list (string * Data)
}.

Fixpoint get {A : Type} (r : positive) (l : list (positive * A)) : option A :=
  match l with
  | [] => None
  | (r', x) :: rest => if Pos.eqb r r' then Some x else get r rest
  end.

Fixpoint read {A : Type} (p : string) (l : list (string * A)) : option A :=
  match l with
  | [] => None
  | (p', x) :: rest => if String.eqb p p' then Some x else read p rest
  end.

Definition keep_or_add {A : Type} (r : positive) (x : A)
    (l : list (positive * A)) : list (positive * A) :=
  match get r l with
  | Some _ => l
  | None => (r, x) :: l
  end.

Definition psf_data : Data :=
  [ ("OVERSAMP", (180, 180)%Z); ("DET_SAMP", (45, 45)%Z) ].

Definition construct (w : World) : Result * World :=
  (Returns (VRef (next w)),
   MkWorld (Pos.succ (next w)) (keep_or_add (next w) "F062" (instruments w))
           (hduls w) (disk w)).

Definition calc_psf (recv : Value) (w : World) : Result * World :=
  match recv with
  | VRef i =>
      match get i (instruments w) with
      | Some _ =>
          (Returns (VRef (next w)),
           MkWorld (Pos.succ (next w)) (instruments w)
                   (keep_or_add (next w) psf_data (hduls w)) (disk w))
      | None => (Raises (VStr "AttributeError"), w)
      end
  | _ => (Raises (VStr "AttributeError"), w)
  end.

Definition hdul_data (w : World) (o : Value) : option Data :=
  match o with
  | VRef r => get r (hduls w)
  | _ => None
  end.

Definition config (w : World) (o : Value) : option string :=
  match o with
  | VRef r => get r (instruments w)
  | _ => None
  end.

Definition fs (w : World) (p : string) : option Data := read p (disk w).

Definition save (p : string) (d : Data) (w : World) : World :=
  MkWorld (next w) (instruments w) (hduls w) ((p, d) :: disk w).

Definition writeto (recv : Value) (args : list Value)
    (kwargs : list (string * Value)) (w : World) : Result * World :=
  match args with
  | [VStr p] =>
      match hdul_data w recv with
      | Some d =>
          match fs w p with
          | Some _ =>
              if kw_true "clobber" kwargs
              then (Returns VNone, save p d w)
              else (Raises (VStr "OSError: file exists"), w)
          | None => (Returns VNone, save p d w)
          end
      | None => (Raises (VStr "AttributeError"), w)
      end
  | _ => (Raises (VStr "TypeError"), w)
  end.

Definition lib : Library World := fun e w =>
  match e with
  | EMagic _ | ESetAttr _ _ _ | ESetItem _ _ _ => (Returns VNone, w)
  | EImport _ | EImportFrom _ _ | EGetAttr _ _ => (Returns (VRef 1), w)
  | ECall recv name args kwargs =>
      if String.eqb name "WFI" then construct w
      else if String.eqb name "calc_psf" then calc_psf recv w
      else if String.eqb name "writeto" then writeto recv args kwargs w
      else (Returns VNone, w)
  end.

(** A fresh machine, and one where an earlier run left its file behind. *)
Definition w0 : World := MkWorld 2 [] [] [].

Definition w_old : World :=
  MkWorld 2 [] [] [ (fits_path, [("PRIMARY", (1, 1)%Z)]) ].

(** The same library with too little memory for the PSF calculation. *)
Definition lib_oom : Library World := fun e w =>
  match e with
  | ECall _ name _ _ =>
      if String.eqb name "calc_psf" then (Raises (VStr "MemoryError"), w)
      else lib e w
  | _ => lib e w
  end.

End Mock.

(** The concrete library on a machine where the widget module is missing:
    reading [webbpsf.jupyter_gui] raises. *)
Definition mock_lib_no_widget : Library Mock.World := fun e w =>
  match e with
  | EGetAttr _ attr =>
      if String.eqb attr "jupyter_gui"
      then (Raises (VStr "AttributeError"), w)
      else Mock.lib e w
  | _ => Mock.lib e w
  end.

(** * Facts about every run *)

(** A run that ends where it stands adds nothing to the session. *)
Ltac stop_here Hrun :=
  injection Hrun as <- <-; exists []; rewrite app_nil_r;
  split_and!; simpl; by try constructor.

Section RunFacts.
Context {World : Type} (lib : Library World).

Lemma chain_app w (l1 l2 : list (Entry World)) :
  chain lib w (l1 ++ l2) <-> chain lib w l1 /\ chain lib (end_world w l1) l2.
Proof.
  revert w. induction l1 as [|en l1 IH]; intros w; simpl.
  - tauto.
  - rewrite IH. unfold end_world. simpl. tauto.
Qed.

Lemma end_world_app w (l1 l2 : list (Entry World)) :
  end_world w (l1 ++ l2) = end_world (end_world w l1) l2.
Proof. unfold end_world. apply foldl_app. Qed.

Lemma clean_app o (l1 l2 : list (Entry World)) :
  Forall returned l1 -> clean o l2 -> clean o (l1 ++ l2).
Proof.
  intros H1 H2. destruct o as [|[x|y]]; simpl in *.
  - by apply Forall_app.
  - destruct H2 as (before & last & -> & Hb & Hl).
    exists (l1 ++ before), last. rewrite app_assoc. split_and!; try done.
    by apply Forall_app.
  - by apply Forall_app.
Qed.

(** What one statement adds to the session. *)
Lemma run_stmt_spec (P : Event -> Prop) p : forall c k o k',
  events_sat P p ->
  run_stmt lib c p k = (o, k') ->
  exists new,
    log k' = log k ++ new /\
    chain lib (world k) new /\
    world k' = end_world (world k) new /\
    clean o new /\
    Forall (fun en => P (ev en) /\ cell en = c) new.
Proof.
  induction p as [|e cont IH|x cont IH|x v cont IH]; intros c k o k' Hsat Hrun;
    simpl in Hrun.
  - stop_here Hrun.
  - destruct Hsat as [HP Hsat].
    destruct (lib e (world k)) as [r w'] eqn:E. destruct r as [v|exc].
    + apply IH in Hrun as (new & Hlog & Hch & Hw & Hcl & Hall); [|done].
      simpl in *. exists (MkEntry c e (Returns v) w' :: new).
      rewrite Hlog, <- app_assoc. split_and!; try done.
      * apply (clean_app o [_]); [|done]. by repeat constructor.
      * by constructor.
    + injection Hrun as <- <-. exists [MkEntry c e (Raises exc) w'].
      simpl. split_and!; try done.
      * exists [], (MkEntry c e (Raises exc) w'). by repeat split.
      * by repeat constructor.
  - destruct (ns k !! x) as [v|].
    + by apply IH in Hrun.
    + stop_here Hrun.
  - by apply IH in Hrun.
Qed.

Lemma run_stmts_spec (P : Event -> Prop) ps : forall c k o k',
  Forall (events_sat P) ps ->
  run_stmts lib c ps k = (o, k') ->
  exists new,
    log k' = log k ++ new /\
    chain lib (world k) new /\
    world k' = end_world (world k) new /\
    clean o new /\
    Forall (fun en => P (ev en) /\ cell en = c) new.
Proof.
  induction ps as [|p ps IH]; intros c k o k' Hsat Hrun; simpl in Hrun.
  - stop_here Hrun.
  - apply Forall_cons in Hsat as [Hp Hps].
    destruct (run_stmt lib c p k) as [[|e1] k1] eqn:E1.
    + apply (run_stmt_spec P) in E1 as (n1 & L1 & C1 & W1 & Cl1 & A1); [|done].
      apply IH in Hrun as (n2 & L2 & C2 & W2 & Cl2 & A2); [|done].
      exists (n1 ++ n2). rewrite L2, L1, <- app_assoc.
      rewrite chain_app, end_world_app, <- W1. split_and!; try done.
      * by apply clean_app.
      * by apply Forall_app.
    + injection Hrun as <- <-. by apply (run_stmt_spec P) in E1.
Qed.

Lemma run_cells_spec (P : Event -> Prop) cells : forall c k o k',
  Forall (cell_sat P) cells ->
  run_cells lib c cells k = (o, k') ->
  exists new,
    log k' = log k ++ new /\
    chain lib (world k) new /\
    world k' = end_world (world k) new /\
    clean o new /\
    Forall (fun en => P (ev en)) new.
Proof.
  induction cells as [|cl cells IH]; intros c k o k' Hsat Hrun; simpl in Hrun.
  - stop_here Hrun.
  - apply Forall_cons in Hsat as [Hcl Hcells].
    destruct (run_cell lib c cl k) as [[|e1] k1] eqn:E1; destruct cl as [|ps];
      simpl in E1; simplify_eq.
    + by apply IH in Hrun.
    + apply (run_stmts_spec P) in E1 as (n1 & L1 & C1 & W1 & Cl1 & A1); [|done].
      apply IH in Hrun as (n2 & L2 & C2 & W2 & Cl2 & A2); [|done].
      exists (n1 ++ n2). rewrite L2, L1, <- app_assoc.
      rewrite chain_app, end_world_app, <- W1. split_and!; try done.
      * by apply clean_app.
      * apply Forall_app. split; [|done].
        eapply Forall_impl; [exact A1|]. by intros en [? _].
    + apply (run_stmts_spec P) in E1 as (n1 & L1 & C1 & W1 & Cl1 & A1); [|done].
      exists n1. split_and!; try done.
      eapply Forall_impl; [exact A1|]. by intros en [? _].
Qed.

(** Running a notebook is running its first cells, then the rest. *)
Lemma run_cells_app cells1 cells2 : forall c k,
  run_cells lib c (cells1 ++ cells2) k =
  match run_cells lib c cells1 k with
  | (Finished, k') => run_cells lib (c + length cells1) cells2 k'
  | (Raised e, k') => (Raised e, k')
  end.
Proof.
  induction cells1 as [|cl cells1 IH]; intros c k; simpl.
  - by rewrite Nat.add_0_r.
  - destruct (run_cell lib c cl k) as [[|e] k']; [|done].
    rewrite IH. by rewrite Nat.add_succ_r.
Qed.

End RunFacts.

(** * The notebook's runs *)

(** Walks through a run [H : run_all lib notebook w = (o, k)] one statement
    and one library operation at a time.  An operation either raises, which
    ends the run, or returns, and the walk goes on; [fin] closes every run
    so found.  The equations [lib e w = (r, w')] met on the way stay in the
    context. *)
Ltac walk_stmt lib Hs :=
  repeat first
    [ progress cbn [run_stmt ns world log binds call_ set_rcParam] in Hs
    | rewrite lookup_insert_eq in Hs
    | rewrite lookup_insert_ne in Hs by done
    | match type of Hs with
      | context [lib ?e ?w] =>
          let E := fresh "E" in
          destruct (lib e w) as [[?v|?exc] ?w] eqn:E
      end ];
  let K := fresh "K" in
  injection Hs as <- K.

Ltac walk_from lib H fin :=
  cbn [run_cells run_cell run_stmts] in H;
  repeat match type of H with
         | context [run_stmt lib ?c ?p ?k] =>
             let Hs := fresh "Hs" in
             let o1 := fresh "o" in
             let k1 := fresh "k" in
             destruct (run_stmt lib c p k) as [o1 k1] eqn:Hs;
             try subst k;
             walk_stmt lib Hs;
             cbn [run_cells run_cell run_stmts] in H
         end;
  injection H as <- <-; subst; fin.

Ltac walk lib H fin :=
  unfold run_all, fresh_kernel, notebook, cell_imports, cell_logging,
    cell_construct, cell_widget, cell_calc_psf, cell_info, cell_display_psf,
    cell_display_profiles, cell_writeto in H;
  walk_from lib H fin.

Ltac by_compute := apply (bool_decide_unpack _); vm_compute; exact I.

Lemma events_sat_True p : events_sat (fun _ => True) p.
Proof. induction p; simpl; auto. Qed.

Lemma cells_sat_True cells : Forall (cell_sat (fun _ => True)) cells.
Proof.
  apply Forall_forall. intros [|ps] _; simpl; [done|].
  apply Forall_forall. intros p _. apply events_sat_True.
Qed.

Section Notebook.
Context {World : Type} (lib : Library World).

(** A run is a chain of the library's answers, and a library exception is
    always the last thing in it. *)
Lemma run_all_chain cells w o k :
  run_all lib cells w = (o, k) ->
  chain lib w (log k) /\ world k = end_world w (log k) /\ clean o (log k).
Proof.
  intros H. apply (run_cells_spec lib (fun _ => True)) in H
    as (new & L & C & W & Cl & _); [|apply cells_sat_True].
  simpl in *. subst new. done.
Qed.

(** Every run from a fresh session issues the notebook's operations in
    source order, as far as it gets, and never meets an unbound name. *)
Lemma run_all_ops w o k :
  run_all lib notebook w = (o, k) ->
  map tag (log k) `prefix_of` notebook_ops /\
  (o = Finished -> map tag (log k) = notebook_ops) /\
  (forall x, o <> Raised (NameError x)).
Proof.
  intros H.
  walk lib H ltac:(split_and!;
                   [ by_compute
                   | intros ?; first [discriminate | reflexivity]
                   | discriminate ]).
Qed.

(** C4. The notebook runs as one fixed sequence.  Whatever the library
    answers, the operations issued are an initial segment of the notebook's
    operations in source order, each in the world its predecessor left, so
    nothing is reordered or interleaved, and the tutorial's steps come in
    their order with none repeated.  The run goes on for as long as the
    library returns: it stops short only at an operation that raised, every
    operation before it having returned, and never for a reason of the
    notebook's own.  A run in which every operation returns has issued all
    twenty, and its eight steps (import the library, construct the
    instrument, show the widget, calc_psf, info, display_psf,
    display_profiles, writeto) occur in that order, each exactly once. *)
Theorem fixed_linear_order w :
  let '(o, k) := run_all lib notebook w in
  chain lib w (log k) /\
  map tag (log k) `prefix_of` notebook_ops /\
  omap step_of (map tag (log k)) `prefix_of`
    [ StepImport; StepConstruct; StepWidget; StepCalcPsf; StepInfo;
      StepDisplayPsf; StepDisplayProfiles; StepWriteto ] /\
  match o with
  | Finished =>
      Forall returned (log k) /\
      map tag (log k) = notebook_ops /\
      omap step_of (map tag (log k)) =
        [ StepImport; StepConstruct; StepWidget; StepCalcPsf; StepInfo;
          StepDisplayPsf; StepDisplayProfiles; StepWriteto ]
  | Raised e =>
      exists before en exc,
        log k = before ++ [en] /\
        Forall returned before /\
        res en = Raises exc /\
        e = LibError exc
  end.
Proof.
  destruct (run_all lib notebook w) as [o k] eqn:H.
  destruct (run_all_chain _ _ _ _ H) as (Hc & _ & Hcl).
  destruct (run_all_ops _ _ _ H) as (Hp & Hf & Hn).
  split_and!; [done..| |].
  - destruct Hp as [rest Hp].
    exists (omap step_of rest).
    change [ StepImport; StepConstruct; StepWidget; StepCalcPsf; StepInfo;
             StepDisplayPsf; StepDisplayProfiles; StepWriteto ]
      with (omap step_of notebook_ops).
    by rewrite Hp, omap_app.
  - destruct o as [|[exc|x]]; simpl in Hcl.
    + rewrite (Hf eq_refl). by split_and!.
    + destruct Hcl as (before & en & Hl & Hb & Hr). by exists before, en, exc.
    + by destruct (Hn x).
Qed.

(** C5. No statement of the notebook catches anything.  If a library
    operation raises, the run ends right there with that very exception:
    the raising operation is the last one in the log, every operation
    before it returned, and the world is the one it left.  A run that
    finishes met no exception, and the notebook itself never raises one of
    its own (no name is read before it is bound). *)
Theorem exceptions_propagate w :
  let '(o, k) := run_all lib notebook w in
  match o with
  | Finished => Forall returned (log k)
  | Raised (LibError exc) =>
      exists before last,
        log k = before ++ [last] /\
        Forall returned before /\
        res last = Raises exc /\
        world k = post last /\
        map tag (log k) `prefix_of` notebook_ops
  | Raised (NameError _) => False
  end.
Proof.
  destruct (run_all lib notebook w) as [o k] eqn:H.
  destruct (run_all_chain _ _ _ _ H) as (_ & Hw & Hcl).
  destruct (run_all_ops _ _ _ H) as (Hp & _ & Hn).
  destruct o as [|[exc|x]]; simpl in Hcl; [done| |by destruct (Hn x)].
  destruct Hcl as (before & last & Hl & Hb & Hr).
  exists before, last. split_and!; try done.
  rewrite Hw, Hl, end_world_app. reflexivity.
Qed.

(** C3. The scripted PSF calculation is the one call
    [wfi.calc_psf(monochromatic=1.2e-6, display=True)] of cell 11, and every
    run makes it unless an operation of cells 1 to 8 raised before: a run
    without the call ended with the library exception of its last
    operation, which sits in a cell before cell 11.  The call's receiver is
    the object bound to [wfi], it takes no positional argument and exactly
    these two keyword arguments, and the value it returns is bound to
    [mono_psf], by the one assignment to [mono_psf] in the run.  If the call
    raises, the run ends with that exception and [mono_psf] stays
    unbound. *)
Theorem calc_psf_call w :
  let '(o, k) := run_all lib notebook w in
  match calls_named "calc_psf" (log k) with
  | [] =>
      exists en exc,
        last (log k) = Some en /\
        res en = Raises exc /\
        cell en <= 8 /\
        o = Raised (LibError exc)
  | [en] =>
      cell en = 11 /\
      (exists inst,
          ns k !! "wfi" = Some inst /\
          ev en = ECall inst "calc_psf" []
                    [ ("monochromatic", VFloat wavelength);
                      ("display", VBool true) ]) /\
      match res en with
      | Returns psf =>
          ns k !! "mono_psf" = Some psf /\
          bindings "mono_psf" k = [(11, psf)]
      | Raises exc =>
          o = Raised (LibError exc) /\
          ns k !! "mono_psf" = None /\
          bindings "mono_psf" k = []
      end
  | _ => False
  end.
Proof.
  destruct (run_all lib notebook w) as [o k] eqn:H.
  walk lib H ltac:(vm_compute;
                   first [ by eauto 10
                         | eexists _, _; split_and!;
                           [reflexivity | reflexivity | simpl; lia
                           | reflexivity] ]).
Qed.

End Notebook.

(** * What the library's contract adds *)

Section Chains.
Context {World : Type} (lib : Library World).

(** The first call of [name] splits a log in two. *)
Lemma find_call_split name (l : list (Entry World)) en :
  find_call name l = Some en ->
  exists before, l = before ++ en :: after_call name l.
Proof.
  unfold find_call. induction l as [|x l IH]; simpl; [done|].
  destruct (calls name x).
  - intros [= ->]. by exists [].
  - intros H. destruct (IH H) as [before Hb]. exists (x :: before).
    simpl. by f_equal.
Qed.

Lemma chain_after w (before rest : list (Entry World)) en :
  chain lib w (before ++ en :: rest) ->
  chain lib (post en) rest /\
  end_world w (before ++ en :: rest) = end_world (post en) rest.
Proof.
  intros H. apply chain_app in H as [_ [_ H]].
  split; [done|]. by rewrite end_world_app.
Qed.

(** A property of the world that every operation satisfying [P] keeps
    holds along a chain of such operations. *)
Lemma chain_invariant (P : Event -> Prop) (Inv : World -> Prop)
    (l : list (Entry World)) : forall w,
  (forall e w', P e -> Inv w' -> Inv (lib e w').2) ->
  chain lib w l ->
  Forall (fun en => P (ev en)) l ->
  Inv w ->
  Forall (fun en => Inv (post en)) l /\ Inv (end_world w l).
Proof.
  induction l as [|en l IH]; intros w Hkeep Hch Hall Hw; simpl.
  - by split.
  - destruct Hch as [Hlib Hch]. apply Forall_cons in Hall as [Hen Hall].
    assert (Inv (post en)) as Hpost.
    { specialize (Hkeep (ev en) w Hen Hw). by rewrite Hlib in Hkeep. }
    destruct (IH (post en) Hkeep Hch Hall Hpost) as [H1 H2].
    split; [by constructor | done].
Qed.

End Chains.

Section Instrument.
Context {World Conf : Type} (lib : Library World).

(** The configuration of an instrument object, where the object exists. *)
Variable config : World -> Value -> option Conf.

(** Library contract: reading an attribute or calling a function does not
    reconfigure an existing instrument. *)
Hypothesis reads_and_calls_keep_config : forall e w inst c,
  is_read_or_call e = true ->
  config w inst = Some c ->
  config (lib e w).2 inst = Some c.

(** After the constructor call the notebook only reads attributes and calls
    functions, and [wfi] still names the constructed object. *)
Lemma after_construct_reads_calls w o k :
  run_all lib notebook w = (o, k) ->
  forall en inst,
    find_call "WFI" (log k) = Some en ->
    res en = Returns inst ->
    ns k !! "wfi" = Some inst /\
    bindings "wfi" k = [(6, inst)] /\
    Forall (fun en' => is_read_or_call (ev en') = true)
           (after_call "WFI" (log k)) /\
    Forall (fun en' => receives inst (ev en')) (after_call "WFI" (log k)).
Proof using Type.
  intros H.
  walk lib H ltac:(intros en inst Hf Hr; vm_compute in Hf;
                   first [ discriminate
                         | injection Hf as <-; vm_compute in Hr;
                           first [ discriminate
                                 | injection Hr as <-;
                                   split_and!;
                                   [ reflexivity | reflexivity
                                   | by_compute
                                   | repeat constructor; intros ?;
                                     first [discriminate | reflexivity]
                                   ] ] ]).
Qed.

(** C6. Once [wfi = webbpsf.roman.WFI()] has run, no statement assigns to
    the instrument: every later operation of the notebook is an attribute
    read or a call, [wfi] is assigned once, in cell 6, and the object is
    handed to the widget call as its argument and to [calc_psf] as its
    receiver.  So, reads and calls leaving an instrument's configuration
    alone, the configuration the constructor produced is the configuration
    in every later world of the run and at its end. *)
Theorem wfi_configuration_kept w o k en inst c :
  run_all lib notebook w = (o, k) ->
  find_call "WFI" (log k) = Some en ->
  res en = Returns inst ->
  config (post en) inst = Some c ->
  ns k !! "wfi" = Some inst /\
  bindings "wfi" k = [(6, inst)] /\
  Forall (fun en' => receives inst (ev en')) (after_call "WFI" (log k)) /\
  Forall (fun en' => is_read_or_call (ev en') = true /\
                     config (post en') inst = Some c)
         (after_call "WFI" (log k)) /\
  config (world k) inst = Some c.
Proof.
  intros H Hf Hr Hc.
  destruct (after_construct_reads_calls _ _ _ H _ _ Hf Hr)
    as (Hns & Hbind & Hrc & Huse).
  destruct (run_all_chain _ _ _ _ _ H) as (Hch & Hw & _).
  destruct (find_call_split _ _ _ Hf) as [before Hl].
  rewrite Hl in Hch. apply chain_after in Hch as [Hch Hend].
  rewrite <- Hl in Hend.
  destruct (chain_invariant lib (fun e => is_read_or_call e = true)
              (fun w' => config w' inst = Some c)
              (after_call "WFI" (log k)) (post en)) as [H1 H2];
    [by intros; apply reads_and_calls_keep_config | done..|].
  split_and!; [done..| |by rewrite Hw, Hend].
  apply Forall_and. by split.
Qed.

End Instrument.

Section Disk.
Context {World Data : Type} (lib : Library World).

(** The content of the file at a path, if there is one. *)
Variable fs : World -> string -> option Data.

(** Library contract: only a save call touches a file, and only the file it
    is given. *)
Hypothesis only_saves_write : forall e w p,
  save_path e <> Some p -> fs (lib e w).2 p = fs w p.

(** Statement by statement: the one save call of the notebook is
    [mono_psf.writeto('./mono_psf_1.2um.fits', ...)]. *)
Lemma notebook_saves_only_fits : Forall (cell_sat saves_only_fits) notebook.
Proof using Type.
  unfold notebook, saves_only_fits.
  repeat (apply Forall_cons; split); try apply Forall_nil; simpl; try done;
    repeat (apply Forall_cons; split); try apply Forall_nil; simpl;
    repeat split; intros; auto.
Qed.

(** C8. The only file a run of the notebook can create or change is
    './mono_psf_1.2um.fits': no operation of the notebook is a save call
    for another path, so, only save calls touching files, every other path
    holds at the end of the run (finished or not) what it held before. *)
Theorem only_the_fits_file w o k p :
  run_all lib notebook w = (o, k) ->
  p <> fits_path ->
  Forall (fun en => saves_only_fits (ev en)) (log k) /\
  fs (world k) p = fs w p.
Proof.
  intros H Hp.
  apply (run_cells_spec lib saves_only_fits) in H
    as (new & L & C & W & _ & A); [|apply notebook_saves_only_fits].
  simpl in L, C, W. subst new.
  split; [done|].
  destruct (chain_invariant lib saves_only_fits (fun w' => fs w' p = fs w p)
              (log k) w) as [_ Hend]; try done.
  - intros e w' [He|He] Hw'; rewrite only_saves_write; try done;
      rewrite He; congruence.
  - by rewrite W.
Qed.

End Disk.

Section Result.
Context {World Data : Type} (lib : Library World).

(** The image data an HDUList object holds, and the content of a file. *)
Variable hdul_data : World -> Value -> option Data.
Variable fs : World -> string -> option Data.

(** Library contract: [info], [display_psf], [figure] and
    [display_profiles] leave every HDUList as it is. *)
Hypothesis display_is_read_only : forall e w hdul,
  is_display_call e = true ->
  hdul_data (lib e w).2 hdul = hdul_data w hdul.

(** Library contract: a [writeto] that returns has stored the data of its
    receiver at the given path. *)
Hypothesis writeto_saves : forall hdul p kwargs w r w',
  lib (ECall hdul "writeto" [VStr p] kwargs) w = (Returns r, w') ->
  fs w' p = hdul_data w hdul.

Ltac note_display psf :=
  repeat match goal with
         | E : lib ?e ?w = (_, ?w') |- _ =>
             lazymatch goal with
             | _ : hdul_data w' psf = hdul_data w psf |- _ => fail
             | _ =>
                 let X := fresh "X" in
                 assert (hdul_data w' psf = hdul_data w psf) as X
                   by (rewrite <- (display_is_read_only e w psf eq_refl);
                       by rewrite E)
             end
         end.

Ltac note_save :=
  match goal with
  | E : lib (ECall _ "writeto" _ _) _ = (Returns _, _) |- _ =>
      apply writeto_saves in E
  end.

(** C10. In a run that finishes, [mono_psf] is assigned once, in cell 11,
    to the object [calc_psf] returned.  The operations after that are
    exactly the calls [info], [display_psf], [figure], [display_profiles]
    and [writeto], none of them an assignment; wherever they use
    [mono_psf] they receive that same object, and it is the receiver of
    [writeto].  So, these inspection and plotting calls being read-only,
    the file written holds the data the object had when [calc_psf]
    returned. *)
Theorem written_is_computed w k :
  run_all lib notebook w = (Finished, k) ->
  exists en psf m plt,
    find_call "calc_psf" (log k) = Some en /\
    res en = Returns psf /\
    ns k !! "mono_psf" = Some psf /\
    bindings "mono_psf" k = [(11, psf)] /\
    map ev (after_call "calc_psf" (log k)) =
      [ ECall psf "info" [] [];
        ECall m "display_psf" [psf] [("ext", VStr "DET_SAMP")];
        ECall plt "figure" [] [("figsize", VTuple [VInt 8; VInt 6])];
        ECall m "display_profiles" [psf] [];
        ECall psf "writeto" [VStr fits_path] [("clobber", VBool true)] ] /\
    fs (world k) fits_path = hdul_data (post en) psf.
Proof.
  intros H. remember Finished as o eqn:Ho in H. revert Ho.
  walk lib H ltac:(intros Ho; first [discriminate | idtac]).
  eexists _, _, _, _. split_and!; try reflexivity.
  simpl. note_save.
  match goal with |- _ = hdul_data _ ?psf => note_display psf end.
  congruence.
Qed.

End Result.

Section Overwrite.
Context {World Data : Type} (lib : Library World).

Variable hdul_data : World -> Value -> option Data.
Variable fs : World -> string -> option Data.

(** Library contract: writing an HDUList fails only on an existing file,
    and not even then when [clobber] is set; the file then holds the
    HDUList's data and the HDUList is unchanged. *)
Hypothesis writeto_overwrites : forall hdul p kwargs w d,
  hdul_data w hdul = Some d ->
  kw_true "clobber" kwargs = true \/ fs w p = None ->
  exists r w',
    lib (ECall hdul "writeto" [VStr p] kwargs) w = (Returns r, w') /\
    fs w' p = Some d /\
    hdul_data w' hdul = Some d.

(** One execution of the final cell, in any session that has [mono_psf]. *)
Lemma run_final_cell k psf d :
  ns k !! "mono_psf" = Some psf ->
  hdul_data (world k) psf = Some d ->
  exists r w',
    run_nth lib 19 notebook k =
      (Finished,
       MkKernel (ns k) w'
         (log k ++ [MkEntry 19
                      (ECall psf "writeto" [VStr fits_path]
                             [("clobber", VBool true)])
                      (Returns r) w'])
         (binds k)) /\
    fs w' fits_path = Some d /\
    hdul_data w' psf = Some d.
Proof.
  intros Hns Hd.
  destruct (writeto_overwrites psf fits_path [("clobber", VBool true)]
              (world k) d Hd (or_introl eq_refl)) as (r & w' & E & Hfs & Hh).
  exists r, w'. split; [|done].
  unfold run_nth. simpl. rewrite Hns. simpl. by rewrite E.
Qed.

(** C9. The final cell passes [clobber=True] to [writeto].  So, [writeto]
    replacing an existing file when [clobber] is set, the cell succeeds in
    any session where [mono_psf] names an HDUList, whatever is on disk, and
    however many times it is run again: each execution is the one call
    [mono_psf.writeto('./mono_psf_1.2um.fits', clobber=True)], it returns,
    and the file holds the HDUList's data afterwards. *)
Theorem rerun_final_cell n : forall k psf d,
  ns k !! "mono_psf" = Some psf ->
  hdul_data (world k) psf = Some d ->
  exists k' new,
    rerun lib n 19 notebook k = (Finished, k') /\
    ns k' = ns k /\
    binds k' = binds k /\
    log k' = log k ++ new /\
    length new = n /\
    Forall (fun en =>
              ev en = ECall psf "writeto" [VStr fits_path]
                            [("clobber", VBool true)] /\
              returned en) new /\
    (n <> 0 -> fs (world k') fits_path = Some d).
Proof.
  induction n as [|n IH]; intros k psf d Hns Hd.
  - exists k, []. rewrite app_nil_r. by split_and!.
  - destruct (run_final_cell k psf d Hns Hd) as (r & w' & Hrun & Hfs & Hh).
    simpl. rewrite Hrun.
    match type of Hrun with
    | _ = (_, ?k1) =>
        destruct (IH k1 psf d Hns Hh)
          as (k' & new & Hre & Hns' & Hb' & Hlog & Hlen & Hall & Hlast)
    end.
    exists k', (MkEntry 19 (ECall psf "writeto" [VStr fits_path]
                                  [("clobber", VBool true)])
                          (Returns r) w' :: new).
    simpl in *. split_and!; try done.
    + by rewrite Hlog, <- app_assoc.
    + by rewrite Hlen.
    + by constructor.
    + intros _. destruct n as [|n']; [|by apply Hlast].
      simpl in Hre. by injection Hre as <-.
Qed.

End Overwrite.

Section Widget.
Context {World Data : Type} (lib : Library World).

Variable fs : World -> string -> option Data.

(** Worlds that differ only in what the widget displayed. *)
Variable sim : World -> World -> Prop.
Hypothesis sim_equiv : Equivalence sim.
Hypothesis sim_files : forall w1 w2 p, sim w1 w2 -> fs w1 p = fs w2 p.

(** Library contract: what the library answers does not depend on what the
    widget displayed. *)
Hypothesis lib_respects_sim : forall e w1 w2,
  sim w1 w2 ->
  (lib e w1).1 = (lib e w2).1 /\ sim (lib e w1).2 (lib e w2).2.

(** No widget input: bringing up the widget returns and changes nothing
    but the display. *)
Hypothesis widget_idle : forall e w,
  is_widget_op e = true ->
  (exists v, (lib e w).1 = Returns v) /\ sim (lib e w).2 w.

Local Abbreviation agree' := (agree sim).
Local Abbreviation in_step' := (in_step sim).

Lemma in_step_same_log o (ka kb k1 k2 : Kernel World) :
  agree' ka kb -> log ka = log k1 -> log kb = log k2 ->
  in_step' (o, ka) (o, kb) k1 k2.
Proof using Type.
  intros Ha L1 L2. split_and!; try done. exists [], [].
  simpl. by rewrite !app_nil_r.
Qed.

Lemma in_step_here o k1 k2 :
  agree' k1 k2 -> in_step' (o, k1) (o, k2) k1 k2.
Proof using Type. intros Ha. by apply in_step_same_log. Qed.

Lemma in_step_trans (ka kb k1 k2 : Kernel World) r1 r2 :
  in_step' (Finished, k1) (Finished, k2) ka kb ->
  in_step' r1 r2 k1 k2 ->
  in_step' r1 r2 ka kb.
Proof using Type.
  intros (_ & _ & n1 & n2 & L1 & L2 & Hn) (Ho & Ha & m1 & m2 & M1 & M2 & Hm).
  simpl in *. split_and!; try done.
  exists (n1 ++ m1), (n2 ++ m2). rewrite M1, M2, L1, L2, <- !app_assoc.
  rewrite !map_app. by rewrite Hn, Hm.
Qed.

Lemma run_stmt_sim p : forall c k1 k2,
  agree' k1 k2 ->
  in_step' (run_stmt lib c p k1) (run_stmt lib c p k2) k1 k2.
Proof using lib_respects_sim.
  induction p as [|e cont IH|x cont IH|x v cont IH];
    intros c k1 k2 (Hns & Hb & Hw); simpl.
  - by apply in_step_here.
  - destruct (lib_respects_sim e _ _ Hw) as [Hr Hs].
    destruct (lib e (world k1)) as [r1 w1], (lib e (world k2)) as [r2 w2].
    simpl in Hr, Hs. subst r2.
    set (k1' := MkKernel (ns k1) w1 (log k1 ++ [MkEntry c e r1 w1]) (binds k1)).
    set (k2' := MkKernel (ns k2) w2 (log k2 ++ [MkEntry c e r1 w2]) (binds k2)).
    assert (in_step' (Finished, k1') (Finished, k2') k1 k2) as Hstep.
    { split_and!; try done. by eexists [_], [_]. }
    destruct r1 as [v|exc].
    + apply (in_step_trans k1 k2 k1' k2'); [done|].
      apply IH. by split_and!.
    + destruct Hstep as (_ & Ha & Hn). by split_and!.
  - rewrite Hns. destruct (ns k2 !! x) as [v|].
    + apply IH. by split_and!.
    + by apply in_step_here.
  - set (k1' := MkKernel (<[x:=v]> (ns k1)) (world k1) (log k1)
                         (binds k1 ++ [(c, x, v)])).
    set (k2' := MkKernel (<[x:=v]> (ns k2)) (world k2) (log k2)
                         (binds k2 ++ [(c, x, v)])).
    assert (agree' k1' k2') as Ha.
    { split_and!; simpl; [by rewrite Hns | by rewrite Hb | done]. }
    apply (in_step_trans k1 k2 k1' k2').
    + by apply in_step_same_log.
    + by apply IH.
Qed.

Lemma run_stmts_sim ps : forall c k1 k2,
  agree' k1 k2 ->
  in_step' (run_stmts lib c ps k1) (run_stmts lib c ps k2) k1 k2.
Proof using lib_respects_sim.
  induction ps as [|p ps IH]; intros c k1 k2 Ha; simpl.
  - by apply in_step_here.
  - pose proof (run_stmt_sim p c k1 k2 Ha) as Hp.
    destruct (run_stmt lib c p k1) as [o1 k1'].
    destruct (run_stmt lib c p k2) as [o2 k2'].
    destruct Hp as (Ho & Ha' & Hn). simpl in Ho. subst o2.
    destruct o1 as [|e]; [|by split_and!].
    apply (in_step_trans k1 k2 k1' k2');
      [by split_and! | by apply IH].
Qed.

Lemma run_cells_sim cells : forall c k1 k2,
  agree' k1 k2 ->
  in_step' (run_cells lib c cells k1) (run_cells lib c cells k2) k1 k2.
Proof using lib_respects_sim.
  induction cells as [|cl cells IH]; intros c k1 k2 Ha; simpl.
  - by apply in_step_here.
  - assert (in_step' (run_cell lib c cl k1) (run_cell lib c cl k2) k1 k2) as Hp.
    { destruct cl; simpl; [by apply in_step_here | by apply run_stmts_sim]. }
    destruct (run_cell lib c cl k1) as [o1 k1'].
    destruct (run_cell lib c cl k2) as [o2 k2'].
    destruct Hp as (Ho & Ha' & Hn). simpl in Ho. subst o2.
    destruct o1 as [|e]; [|by split_and!].
    apply (in_step_trans k1 k2 k1' k2');
      [by split_and! | by apply IH].
Qed.

(** When the widget cell is reached, [webbpsf] and [wfi] are bound. *)
Lemma widget_cell_reached w o k :
  run_cells lib 0 (take 8 notebook) (fresh_kernel w) = (o, k) ->
  o = Finished ->
  exists m inst, ns k !! "webbpsf" = Some m /\ ns k !! "wfi" = Some inst.
Proof using Type.
  intros H.
  unfold fresh_kernel, notebook, cell_imports, cell_logging,
    cell_construct in H.
  cbn [take] in H.
  walk_from lib H ltac:(intros Ho; first [discriminate | idtac]).
  eexists _, _. split; vm_compute; reflexivity.
Qed.


End Widget.

(** * The theorems on a concrete library *)

Lemma mock_get_keep {A : Type} r r' (x c : A) l :
  Mock.get r l = Some c -> Mock.get r (Mock.keep_or_add r' x l) = Some c.
Proof.
  intros H. unfold Mock.keep_or_add.
  destruct (Mock.get r' l) eqn:E; [done|]. simpl.
  destruct (Pos.eqb_spec r r') as [->|_]; [congruence | done].
Qed.

Lemma mock_keeps_config e w inst c :
  is_read_or_call e = true ->
  Mock.config w inst = Some c ->
  Mock.config (Mock.lib e w).2 inst = Some c.
Proof.
  intros He Hc. destruct e as [| | | | | |recv name args kwargs]; try done.
  unfold Mock.lib.
  destruct (String.eqb name "WFI"); [|destruct (String.eqb name "calc_psf");
    [|destruct (String.eqb name "writeto"); [|done]]].
  - destruct inst; try done. simpl in *. by apply mock_get_keep.
  - unfold Mock.calc_psf. destruct recv; try done.
    by destruct (Mock.get r (Mock.instruments w)).
  - unfold Mock.writeto. destruct args as [|[] []]; try done.
    destruct (Mock.hdul_data w recv); try done.
    destruct (Mock.fs w s); try done.
    by destruct (kw_true "clobber" kwargs).
Qed.

Lemma mock_only_saves_write e w p :
  save_path e <> Some p -> Mock.fs (Mock.lib e w).2 p = Mock.fs w p.
Proof.
  intros He. destruct e as [| | | | | |recv name args kwargs]; try done.
  unfold Mock.lib. simpl in He.
  destruct (String.eqb name "WFI"); [done|].
  destruct (String.eqb name "calc_psf").
  { unfold Mock.calc_psf. destruct recv; try done.
    by destruct (Mock.get r (Mock.instruments w)). }
  destruct (String.eqb name "writeto"); [|done].
  unfold Mock.writeto. destruct args as [|[] []]; try done.
  destruct (Mock.hdul_data w recv); try done.
  assert (Mock.fs (Mock.save s d w) p = Mock.fs w p) as Hsave.
  { unfold Mock.fs, Mock.save. simpl.
    destruct (String.eqb_spec p s) as [->|_]; [congruence | done]. }
  destruct (Mock.fs w s); try done.
  by destruct (kw_true "clobber" kwargs).
Qed.

Lemma mock_display_is_read_only e w hdul :
  is_display_call e = true ->
  Mock.hdul_data (Mock.lib e w).2 hdul = Mock.hdul_data w hdul.
Proof.
  intros He. destruct e as [| | | | | |recv name args kwargs]; try done.
  simpl in He. apply bool_decide_eq_true in He.
  repeat (apply elem_of_cons in He as [->|He]); try done.
  by apply elem_of_nil in He.
Qed.

Lemma mock_save_read p d w : Mock.fs (Mock.save p d w) p = Some d.
Proof. unfold Mock.fs, Mock.save. simpl. by rewrite String.eqb_refl. Qed.

Lemma mock_writeto_saves hdul p kwargs w r w' :
  Mock.lib (ECall hdul "writeto" [VStr p] kwargs) w = (Returns r, w') ->
  Mock.fs w' p = Mock.hdul_data w hdul.
Proof.
  unfold Mock.lib. simpl. unfold Mock.writeto.
  destruct (Mock.hdul_data w hdul) as [d|]; [|done].
  destruct (Mock.fs w p); [destruct (kw_true "clobber" kwargs)|];
    intros [= <- <-]; apply mock_save_read.
Qed.

Lemma mock_writeto_overwrites hdul p kwargs w d :
  Mock.hdul_data w hdul = Some d ->
  kw_true "clobber" kwargs = true \/ Mock.fs w p = None ->
  exists r w',
    Mock.lib (ECall hdul "writeto" [VStr p] kwargs) w = (Returns r, w') /\
    Mock.fs w' p = Some d /\
    Mock.hdul_data w' hdul = Some d.
Proof.
  intros Hd Hc. exists VNone, (Mock.save p d w).
  split; [|split; [apply mock_save_read | done]].
  unfold Mock.lib. simpl. unfold Mock.writeto. rewrite Hd.
  destruct Hc as [-> | ->]; [by destruct (Mock.fs w p) | done].
Qed.

Lemma mock_respects_eq e (w1 w2 : Mock.World) :
  w1 = w2 ->
  (Mock.lib e w1).1 = (Mock.lib e w2).1 /\
  (Mock.lib e w1).2 = (Mock.lib e w2).2.
Proof. by intros ->. Qed.

Lemma mock_widget_idle e w :
  is_widget_op e = true ->
  (exists v, (Mock.lib e w).1 = Returns v) /\ (Mock.lib e w).2 = w.
Proof.
  intros He. destruct e as [| | |obj attr| | |recv name args kwargs]; try done.
  - split; [by eexists | done].
  - simpl in He. apply String.eqb_eq in He as ->. split; [by eexists | done].
Qed.

(** The notebook runs to the end on the concrete library, writes the PSF
    over an older file, and stops at [calc_psf] when that call raises. *)
Example mock_run_finishes :
  (run_all Mock.lib notebook Mock.w_old).1 = Finished /\
  Mock.fs (world (run_all Mock.lib notebook Mock.w_old).2) fits_path
    = Some Mock.psf_data.
Proof. split; vm_compute; reflexivity. Qed.

Example mock_run_out_of_memory :
  (run_all Mock.lib_oom notebook Mock.w0).1
    = Raised (LibError (VStr "MemoryError")) /\
  ns (run_all Mock.lib_oom notebook Mock.w0).2 !! "mono_psf" = None /\
  map tag (log (run_all Mock.lib_oom notebook Mock.w0).2)
    = take 15 notebook_ops.
Proof. split_and!; vm_compute; reflexivity. Qed.

Lemma run_all_pair {World : Type} (lib : Library World) cells w :
  run_all lib cells w = ((run_all lib cells w).1, (run_all lib cells w).2).
Proof. by destruct (run_all lib cells w). Defined.

Lemma run_all_finished {World : Type} (lib : Library World) cells w :
  (run_all lib cells w).1 = Finished ->
  run_all lib cells w = (Finished, (run_all lib cells w).2).
Proof. destruct (run_all lib cells w). simpl. by intros ->. Defined.

Lemma wfi_configuration_kept_witness :
  let k := (run_all Mock.lib notebook Mock.w0).2 in
  ns k !! "wfi" = Some (VRef 2) /\
  bindings "wfi" k = [(6, VRef 2)] /\
  Forall (fun en' => receives (VRef 2) (ev en')) (after_call "WFI" (log k)) /\
  Forall (fun en' => is_read_or_call (ev en') = true /\
                     Mock.config (post en') (VRef 2) = Some "F062")
         (after_call "WFI" (log k)) /\
  Mock.config (world k) (VRef 2) = Some "F062".
Proof.
  apply (wfi_configuration_kept Mock.lib Mock.config mock_keeps_config
           Mock.w0 (run_all Mock.lib notebook Mock.w0).1
           (run_all Mock.lib notebook Mock.w0).2
           (MkEntry 6 (ECall (VRef 1) "WFI" [] []) (Returns (VRef 2))
                    (Mock.MkWorld 3 [(2%positive, "F062")] [] []))).
  - apply run_all_pair.
  - vm_compute. reflexivity.
  - reflexivity.
  - reflexivity.
Defined.



Lemma only_the_fits_file_witness :
  Mock.fs (world (run_all Mock.lib notebook Mock.w_old).2) "./notes.txt"
    = Mock.fs Mock.w_old "./notes.txt".
Proof.
  refine (proj2 (only_the_fits_file Mock.lib Mock.fs mock_only_saves_write
                   Mock.w_old (run_all Mock.lib notebook Mock.w_old).1
                   (run_all Mock.lib notebook Mock.w_old).2 "./notes.txt"
                   (run_all_pair _ _ _) _)).
  discriminate.
Defined.

Lemma rerun_final_cell_witness :
  (rerun Mock.lib 3 19 notebook (run_all Mock.lib notebook Mock.w_old).2).1
    = Finished.
Proof.
  destruct (rerun_final_cell Mock.lib Mock.hdul_data Mock.fs
              mock_writeto_overwrites 3
              (run_all Mock.lib notebook Mock.w_old).2 (VRef 3) Mock.psf_data)
    as (k' & new & H & _).
  - vm_compute. reflexivity.
  - vm_compute. reflexivity.
  - by rewrite H.
Defined.

Lemma written_is_computed_witness :
  Mock.fs (world (run_all Mock.lib notebook Mock.w_old).2) fits_path
    = Some Mock.psf_data.
Proof.
  destruct (written_is_computed Mock.lib Mock.hdul_data Mock.fs
              mock_display_is_read_only mock_writeto_saves Mock.w_old
              (run_all Mock.lib notebook Mock.w_old).2)
    as (en & psf & m & plt & Hf & Hr & _ & _ & _ & Hfs).
  - apply run_all_finished. vm_compute. reflexivity.
  - rewrite Hfs. vm_compute in Hf. injection Hf as <-.
    injection Hr as <-. reflexivity.
Defined.

(** * Cells run by hand, and runs in a used session *)

Section ByHand.
Context {World : Type} (lib : Library World).

(** What a statement leaves of the variables it does not assign. *)
Lemma run_stmt_stores (P : string -> Prop) p : forall c k o k',
  stores_sat P p ->
  run_stmt lib c p k = (o, k') ->
  (forall x, ~ P x -> ns k' !! x = ns k !! x) /\
  exists new,
    binds k' = binds k ++ new /\
    Forall (fun b => P b.1.2 /\ b.1.1 = c) new.
Proof.
  induction p as [|e cont IH|x cont IH|x v cont IH]; intros c k o k' Hsat Hrun;
    simpl in Hrun.
  - injection Hrun as <- <-. split; [done|]. exists [].
    by rewrite app_nil_r.
  - destruct (lib e (world k)) as [r w']. destruct r as [v|exc].
    + by apply IH in Hrun.
    + injection Hrun as <- <-. split; [done|]. exists [].
      by rewrite app_nil_r.
  - destruct (ns k !! x) as [v|].
    + by apply IH in Hrun.
    + injection Hrun as <- <-. split; [done|]. exists [].
      by rewrite app_nil_r.
  - destruct Hsat as [HP Hsat].
    apply IH in Hrun as (Hns & new & Hb & Hall); [|done]. simpl in *.
    split.
    + intros y Hy. rewrite Hns by done. apply lookup_insert_ne.
      by intros ->.
    + exists ((c, x, v) :: new). rewrite Hb, <- app_assoc.
      split; [done|]. by constructor.
Qed.

Lemma run_stmts_stores (P : string -> Prop) ps : forall c k o k',
  Forall (stores_sat P) ps ->
  run_stmts lib c ps k = (o, k') ->
  (forall x, ~ P x -> ns k' !! x = ns k !! x) /\
  exists new,
    binds k' = binds k ++ new /\
    Forall (fun b => P b.1.2 /\ b.1.1 = c) new.
Proof.
  induction ps as [|p ps IH]; intros c k o k' Hsat Hrun; simpl in Hrun.
  - injection Hrun as <- <-. split; [done|]. exists [].
    by rewrite app_nil_r.
  - apply Forall_cons in Hsat as [Hp Hps].
    destruct (run_stmt lib c p k) as [[|e1] k1] eqn:E1.
    + apply (run_stmt_stores P) in E1 as (N1 & n1 & B1 & A1); [|done].
      apply IH in Hrun as (N2 & n2 & B2 & A2); [|done].
      split.
      * intros x Hx. by rewrite N2, N1.
      * exists (n1 ++ n2). rewrite B2, B1, <- app_assoc.
        split; [done|]. by apply Forall_app.
    + injection Hrun as <- <-. by apply (run_stmt_stores P) in E1.
Qed.

(** Cell by cell, the notebook assigns only what [writes] lists. *)
Lemma notebook_writes i cl :
  notebook !! i = Some cl ->
  cell_stores_sat (fun x => x ∈ writes i) cl.
Proof.
  do 21 (destruct i as [|i];
         [ intros [= <-]; simpl;
           repeat (apply Forall_cons; split); try apply Forall_nil;
           simpl; repeat split; try done; by_compute
         | ]).
  done.
Qed.

(** X1. Whatever cell of the notebook is run by hand, in whatever session
    and with whatever library, the variables it is not listed to assign
    keep their binding (or stay unbound), and every assignment it makes is
    to a listed variable.  Cell 1 assigns [matplotlib], [plt] and
    [webbpsf], cell 6 [wfi], cell 11 [mono_psf]; the logging, widget,
    inspection, plotting and saving cells assign nothing. *)
Theorem cell_assigns_only_its_names i k x :
  x ∉ writes i ->
  let k' := (run_nth lib i notebook k).2 in
  ns k' !! x = ns k !! x /\
  exists new,
    binds k' = binds k ++ new /\
    Forall (fun b => b.1.2 ∈ writes i /\ b.1.1 = i) new.
Proof.
  intros Hx. unfold run_nth.
  destruct (notebook !! i) as [cl|] eqn:Hi; simpl.
  - pose proof (notebook_writes i cl Hi) as Hsat.
    destruct cl as [|ps]; simpl in *.
    + split; [done|]. exists []. by rewrite app_nil_r.
    + destruct (run_stmts lib i ps k) as [o k'] eqn:Hrun.
      apply (run_stmts_stores (fun y => y ∈ writes i)) in Hrun
        as (Hns & Hb); [|done].
      split; [by apply Hns | done].
  - split; [done|]. exists []. by rewrite app_nil_r.
Qed.

End ByHand.

(** Walks through one cell run by hand, or a run started in a used session:
    as [walk], and a variable the session may or may not bind is looked at
    both ways. *)
Ltac walk_stmt_open lib Hs :=
  repeat first
    [ progress cbn [run_stmt ns world log binds call_ set_rcParam] in Hs
    | rewrite lookup_insert_eq in Hs
    | rewrite lookup_insert_ne in Hs by done
    | match goal with
      | Hx : ns ?k !! ?x = _ |- _ => rewrite Hx in Hs
      end
    | match type of Hs with
      | context [ns ?k !! ?x] =>
          let N := fresh "N" in
          destruct (ns k !! x) as [?v|] eqn:N
      end
    | match type of Hs with
      | context [lib ?e ?wd] =>
          let E := fresh "E" in
          destruct (lib e wd) as [[?v|?exc] ?w] eqn:E
      end ];
  let K := fresh "K" in
  injection Hs as <- K.

Ltac walk_open lib H fin :=
  cbn [run_cells run_cell run_stmts] in H;
  repeat match type of H with
         | context [run_stmt lib ?c ?p ?k] =>
             let Hs := fresh "Hs" in
             let o1 := fresh "o" in
             let k1 := fresh "k" in
             destruct (run_stmt lib c p k) as [o1 k1] eqn:Hs;
             try subst k;
             walk_stmt_open lib Hs;
             cbn [run_cells run_cell run_stmts] in H
         end;
  injection H as <- <-; subst; fin.

Ltac walk_cell lib H fin :=
  unfold run_nth in H;
  match type of H with
  | context [notebook !! ?i] =>
      let c := eval vm_compute in (notebook !! i) in
      change (notebook !! i) with c in H
  end;
  cbv beta iota in H;
  walk_open lib H fin.

Ltac cell_leaf :=
  split_and!;
  [ eexists; split;
    [ first [ cbn [log]; rewrite <- ?app_assoc; reflexivity
            | symmetry; apply app_nil_r ]
    | split;
      [ by_compute
      | intros ?; first [discriminate | vm_compute; reflexivity] ] ]
  | intros x Hx;
    first [ discriminate
          | injection Hx as <-; split; [by_compute | assumption] ]
  | intros Hf;
    first [ discriminate
          | repeat (constructor; [eexists; eassumption|]); constructor ]
  | intros x Hh Hn; vm_compute in Hh;
    first [ discriminate
          | injection Hh as <-; first [congruence | by split] ] ].

Section CellsByHand.
Context {World : Type} (lib : Library World).

(** One cell, any session: the operations it issues, the unbound names it
    can trip over, and what it takes for it to finish. *)
Lemma cell_by_hand i k o k' :
  run_nth lib i notebook k = (o, k') ->
  (exists new,
      log k' = log k ++ new /\
      map tag new `prefix_of` cell_ops i /\
      (o = Finished -> map tag new = cell_ops i)) /\
  (forall x, o = Raised (NameError x) -> x ∈ needs i /\ ns k !! x = None) /\
  (o = Finished -> Forall (fun x => is_Some (ns k !! x)) (needs i)) /\
  (forall x, head (needs i) = Some x -> ns k !! x = None ->
             o = Raised (NameError x) /\ k' = k).
Proof.
  intros H.
  do 21 (destruct i as [|i]; [walk_cell lib H cell_leaf|]).
  walk_cell lib H cell_leaf.
Qed.

(** X2. A cell run by hand in a session that lacks one of the variables
    it needs does not finish.  If the missing variable is the first one the
    cell reads, the cell raises NameError for it before any library
    operation, and the session is exactly as it was: running the final cell
    without [mono_psf] calls no [writeto]. *)
Theorem unbound_need_stops_cell i k x :
  x ∈ needs i ->
  ns k !! x = None ->
  (run_nth lib i notebook k).1 <> Finished /\
  (head (needs i) = Some x ->
   run_nth lib i notebook k = (Raised (NameError x), k)).
Proof.
  intros Hx Hn. destruct (run_nth lib i notebook k) as [o k'] eqn:H.
  destruct (cell_by_hand _ _ _ _ H) as (_ & _ & Hfin & Hhead). split.
  - simpl. intros Ho. specialize (Hfin Ho).
    rewrite Forall_forall in Hfin. destruct (Hfin x Hx) as [v Hv].
    congruence.
  - intros Hh. destruct (Hhead x Hh Hn) as [-> ->]. reflexivity.
Qed.

(** X3. A cell run by hand raises NameError only for a variable it needs
    that the session does not bind: with [needs i] bound, whatever goes
    wrong comes from the library. *)
Theorem name_error_is_unbound_need i k x k' :
  run_nth lib i notebook k = (Raised (NameError x), k') ->
  x ∈ needs i /\ ns k !! x = None.
Proof.
  intros H. destruct (cell_by_hand _ _ _ _ H) as (_ & Hname & _).
  by apply Hname.
Qed.

(** X4. A cell run by hand, in any session, issues only its own library
    operations, in source order: an initial segment of them if it stops
    early, all of them if it finishes, and nothing of another cell. *)
Theorem cell_issues_its_own_ops i k :
  let '(o, k') := run_nth lib i notebook k in
  exists new,
    log k' = log k ++ new /\
    map tag new `prefix_of` cell_ops i /\
    match o with
    | Finished => map tag new = cell_ops i
    | Raised _ => True
    end.
Proof.
  destruct (run_nth lib i notebook k) as [o k'] eqn:H.
  destruct (cell_by_hand _ _ _ _ H) as ((new & Hl & Hp & Hf) & _).
  exists new. split_and!; [done..|]. destruct o; [by apply Hf | done].
Qed.

End CellsByHand.

Lemma cell_assigns_only_its_names_witness :
  ns (run_nth Mock.lib 19 notebook
        (run_all Mock.lib notebook Mock.w0).2).2 !! "mono_psf"
    = ns (run_all Mock.lib notebook Mock.w0).2 !! "mono_psf".
Proof.
  refine (proj1 (cell_assigns_only_its_names Mock.lib 19
                   (run_all Mock.lib notebook Mock.w0).2 "mono_psf" _)).
  by_compute.
Defined.

Lemma unbound_need_stops_cell_witness :
  (run_nth Mock.lib 19 notebook (fresh_kernel Mock.w0)).1 <> Finished.
Proof.
  refine (proj1 (unbound_need_stops_cell Mock.lib 19 (fresh_kernel Mock.w0)
                   "mono_psf" _ _)).
  - by_compute.
  - vm_compute. reflexivity.
Defined.

Lemma name_error_is_unbound_need_witness :
  "wfi" ∈ needs 11 /\ ns (fresh_kernel Mock.w0) !! "wfi" = None.
Proof.
  apply (name_error_is_unbound_need Mock.lib 11 (fresh_kernel Mock.w0) "wfi"
           (fresh_kernel Mock.w0)).
  reflexivity.
Defined.

Section DataFlow.
Context {World : Type} (lib : Library World).

(** X5. The data flow of a run that finishes.  Its twenty operations are
    the ones of [notebook_events], for the values the library returned:
    both [rcParams] items are stored on what [matplotlib.rcParams]
    returned, for the module [import matplotlib] returned; every use of
    [webbpsf] is of what [import webbpsf.roman] returned, the binding of
    [import webbpsf] being replaced before it is ever read; [WFI] is
    called on what [webbpsf.roman] returned, the widget call gets the
    instrument, [figure] is called on what the [pyplot] import returned.
    The run makes exactly six assignments and ends with exactly five
    variables. *)
Theorem finished_run_data_flow w k :
  run_all lib notebook w = (Finished, k) ->
  exists mpl rc1 rc2 plt web0 web roman inst gui psf,
    map (fun en => (cell en, ev en)) (log k)
      = notebook_events mpl rc1 rc2 plt web roman inst gui psf /\
    Forall2 answered (log k)
      (notebook_uses mpl rc1 rc2 plt web0 web roman inst gui psf) /\
    binds k = notebook_binds mpl plt web0 web inst psf /\
    ns k = <["mono_psf" := psf]> (<["wfi" := inst]> (<["webbpsf" := web]>
             (<["plt" := plt]> (<["matplotlib" := mpl]> ∅)))).
Proof.
  intros H. remember Finished as o eqn:Ho in H. revert Ho.
  walk lib H ltac:(intros Ho; first [discriminate | idtac]).
  eexists _, _, _, _, _, _, _, _, _, _. split_and!.
  - reflexivity.
  - simpl. repeat constructor.
  - reflexivity.
  - simpl. by rewrite insert_insert_eq.
Qed.

(** X7. The widget cell is not optional when it fails.  If an operation of
    cell 8 or of an earlier cell raises, for instance the read of
    [webbpsf.jupyter_gui], which no statement imports, then the run never
    calls [calc_psf], leaves [mono_psf] unbound, and calls no [writeto]. *)
Theorem early_failure_blocks_psf w o k en exc :
  run_all lib notebook w = (o, k) ->
  last (log k) = Some en ->
  res en = Raises exc ->
  cell en <= 8 ->
  o = Raised (LibError exc) /\
  calls_named "calc_psf" (log k) = [] /\
  ns k !! "mono_psf" = None /\
  calls_named "writeto" (log k) = [].
Proof.
  intros H.
  walk lib H ltac:(intros Hl Hr Hc; vm_compute in Hl;
                   first [ discriminate
                         | injection Hl as <-; simpl in Hr, Hc;
                           first [ discriminate
                                 | lia
                                 | injection Hr as <-;
                                   split_and!; vm_compute; reflexivity ] ]).
Qed.

End DataFlow.

Lemma early_failure_blocks_psf_witness :
  (run_all mock_lib_no_widget notebook Mock.w0).1
    = Raised (LibError (VStr "AttributeError")) /\
  calls_named "calc_psf" (log (run_all mock_lib_no_widget notebook Mock.w0).2)
    = [] /\
  ns (run_all mock_lib_no_widget notebook Mock.w0).2 !! "mono_psf" = None /\
  calls_named "writeto" (log (run_all mock_lib_no_widget notebook Mock.w0).2)
    = [].
Proof.
  apply (early_failure_blocks_psf mock_lib_no_widget Mock.w0 _ _
           (MkEntry 8 (EGetAttr (VRef 1) "jupyter_gui")
                    (Raises (VStr "AttributeError"))
                    (Mock.MkWorld 3 [(2%positive, "F062")] [] []))
           (VStr "AttributeError") (run_all_pair _ _ _)).
  - vm_compute. reflexivity.
  - reflexivity.
  - simpl. lia.
Defined.

Lemma finished_run_data_flow_witness :
  exists mpl rc1 rc2 plt web0 web roman inst gui psf,
    map (fun en => (cell en, ev en))
        (log (run_all Mock.lib notebook Mock.w0).2)
      = notebook_events mpl rc1 rc2 plt web roman inst gui psf /\
    Forall2 answered (log (run_all Mock.lib notebook Mock.w0).2)
      (notebook_uses mpl rc1 rc2 plt web0 web roman inst gui psf) /\
    binds (run_all Mock.lib notebook Mock.w0).2
      = notebook_binds mpl plt web0 web inst psf /\
    ns (run_all Mock.lib notebook Mock.w0).2
      = <["mono_psf" := psf]> (<["wfi" := inst]> (<["webbpsf" := web]>
          (<["plt" := plt]> (<["matplotlib" := mpl]> ∅)))).
Proof.
  apply (finished_run_data_flow Mock.lib Mock.w0).
  apply run_all_finished. vm_compute. reflexivity.
Defined.

Section StaleFile.
Context {World Data : Type} (lib : Library World).

Variable fs : World -> string -> option Data.

(** Library contract, as for the disk above: only a save call touches a
    file, and only the file it is given. *)
Hypothesis only_saves_write : forall e w p,
  save_path e <> Some p -> fs (lib e w).2 p = fs w p.

Lemma save_is_writeto (en : Entry World) p :
  save_path (ev en) = Some p -> calls "writeto" en = true.
Proof using Type.
  unfold calls, save_path, called. destruct (ev en); try done.
  destruct (String.eqb_spec name "writeto") as [->|]; [|done].
  intros _. by apply bool_decide_eq_true.
Qed.

(** A log without a save call leaves every file as it was. *)
Lemma no_save_keeps_files cells w o k p :
  run_all lib cells w = (o, k) ->
  calls_named "writeto" (log k) = [] ->
  fs (world k) p = fs w p.
Proof using only_saves_write.
  intros H Hnone.
  destruct (run_all_chain _ _ _ _ _ H) as (Hch & Hw & _).
  assert (Forall (fun en => save_path (ev en) = None) (log k)) as Hall.
  { apply Forall_forall. intros en Hen.
    destruct (save_path (ev en)) as [q|] eqn:Hq; [|done].
    apply save_is_writeto in Hq.
    assert (In en (calls_named "writeto" (log k))) as Hin.
    { apply filter_In. split; [by apply list_elem_of_In | done]. }
    rewrite Hnone in Hin. destruct Hin. }
  destruct (chain_invariant lib (fun e => save_path e = None)
              (fun w' => fs w' p = fs w p) (log k) w) as [_ Hend];
    try done.
  - intros e w' He Hw'. rewrite only_saves_write; [done|].
    rewrite He. discriminate.
  - by rewrite Hw.
Qed.

(** X6. The notebook saves last and nowhere else.  A run whose last
    operation belongs to a cell before the final one did not finish: that
    operation raised, no [writeto] was called, and every file is as it was,
    the FITS file included.  After such a run the file at
    './mono_psf_1.2um.fits' is whatever an earlier run left there, or still
    absent. *)
Theorem failed_run_writes_nothing w o k en p :
  run_all lib notebook w = (o, k) ->
  last (log k) = Some en ->
  cell en < 19 ->
  (exists exc, res en = Raises exc /\ o = Raised (LibError exc)) /\
  calls_named "writeto" (log k) = [] /\
  fs (world k) p = fs w p.
Proof.
  intros H Hl Hc.
  pose proof (no_save_keeps_files _ _ _ _ p H) as Hfs.
  enough ((exists exc, res en = Raises exc /\ o = Raised (LibError exc)) /\
          calls_named "writeto" (log k) = []) as [Hexc Hnone].
  { split_and!; [done..|]. by apply Hfs. }
  clear Hfs. revert Hl Hc.
  walk lib H ltac:(intros Hl Hc; vm_compute in Hl; injection Hl as <-;
                   simpl in Hc;
                   first [ lia
                         | split; [by eexists | vm_compute; reflexivity] ]).
Qed.

End StaleFile.

Lemma mock_oom_only_saves_write e w p :
  save_path e <> Some p -> Mock.fs (Mock.lib_oom e w).2 p = Mock.fs w p.
Proof.
  intros He. unfold Mock.lib_oom.
  destruct e as [| | | | | |recv name args kwargs];
    try by apply mock_only_saves_write.
  destruct (String.eqb name "calc_psf"); [done|].
  by apply mock_only_saves_write.
Qed.

Lemma failed_run_writes_nothing_witness :
  calls_named "writeto" (log (run_all Mock.lib_oom notebook Mock.w_old).2)
    = [] /\
  Mock.fs (world (run_all Mock.lib_oom notebook Mock.w_old).2) fits_path
    = Mock.fs Mock.w_old fits_path.
Proof.
  eapply proj2.
  eapply (failed_run_writes_nothing Mock.lib_oom Mock.fs
            mock_oom_only_saves_write Mock.w_old _ _ _ fits_path
            (run_all_pair _ _ _)).
  - vm_compute. reflexivity.
  - simpl. lia.
Defined.

Section UsedSession.
Context {World : Type} (lib : Library World).

(** A statement that meets no unbound name runs the same way with older
    variables behind the ones it sees. *)
Lemma run_stmt_on_top old p : forall c k k0 o k0',
  on_top_of old k k0 ->
  run_stmt lib c p k0 = (o, k0') ->
  (forall x, o <> Raised (NameError x)) ->
  exists k', run_stmt lib c p k = (o, k') /\ on_top_of old k' k0'.
Proof.
  induction p as [|e cont IH|x cont IH|x v cont IH];
    intros c k k0 o k0' (Hw & Hl & Hb & Hns) Hrun Hno; simpl in *.
  - injection Hrun as <- <-. by exists k.
  - rewrite Hw. destruct (lib e (world k0)) as [r w'].
    assert (on_top_of old
              (MkKernel (ns k) w' (log k ++ [MkEntry c e r w']) (binds k))
              (MkKernel (ns k0) w' (log k0 ++ [MkEntry c e r w']) (binds k0)))
      as Htop.
    { split_and!; simpl; try done. by rewrite Hl, <- app_assoc. }
    destruct r as [v|exc].
    + by eapply IH.
    + injection Hrun as <- <-. by eexists.
  - destruct (ns k0 !! x) as [v|] eqn:Hx.
    + rewrite Hns, (lookup_union_Some_l _ _ _ _ Hx).
      eapply IH; [|done..]. by split_and!.
    + injection Hrun as <- _. by destruct (Hno x).
  - eapply IH; [|done..]. split_and!; simpl; try done.
    + by rewrite Hb, <- app_assoc.
    + by rewrite Hns, insert_union_l.
Qed.

Lemma run_stmts_on_top old ps : forall c k k0 o k0',
  on_top_of old k k0 ->
  run_stmts lib c ps k0 = (o, k0') ->
  (forall x, o <> Raised (NameError x)) ->
  exists k', run_stmts lib c ps k = (o, k') /\ on_top_of old k' k0'.
Proof.
  induction ps as [|p ps IH]; intros c k k0 o k0' Htop Hrun Hno; simpl in *.
  - injection Hrun as <- <-. by exists k.
  - destruct (run_stmt lib c p k0) as [[|e1] k1] eqn:E1.
    + destruct (run_stmt_on_top old p c k k0 _ _ Htop E1) as (k' & -> & Htop');
        [done|]. by eapply IH.
    + injection Hrun as <- <-.
      destruct (run_stmt_on_top old p c k k0 _ _ Htop E1) as (k' & -> & Htop');
        [done|]. by exists k'.
Qed.

Lemma run_cells_on_top old cells : forall c k k0 o k0',
  on_top_of old k k0 ->
  run_cells lib c cells k0 = (o, k0') ->
  (forall x, o <> Raised (NameError x)) ->
  exists k', run_cells lib c cells k = (o, k') /\ on_top_of old k' k0'.
Proof.
  induction cells as [|cl cells IH]; intros c k k0 o k0' Htop Hrun Hno;
    simpl in *.
  - injection Hrun as <- <-. by exists k.
  - destruct cl as [|ps]; simpl in *; [by eapply IH|].
    destruct (run_stmts lib c ps k0) as [[|e1] k1] eqn:E1.
    + destruct (run_stmts_on_top old ps c k k0 _ _ Htop E1)
        as (k' & -> & Htop'); [done|]. by eapply IH.
    + injection Hrun as <- <-.
      destruct (run_stmts_on_top old ps c k k0 _ _ Htop E1)
        as (k' & -> & Htop'); [done|]. by exists k'.
Qed.


End UsedSession.

Section SideCells.
Context {World Data : Type} (lib : Library World).

Variable fs : World -> string -> option Data.

(** Worlds that differ only in what was logged or displayed. *)
Variable sim : World -> World -> Prop.
Hypothesis sim_equiv : Equivalence sim.
Hypothesis sim_files : forall w1 w2 p, sim w1 w2 -> fs w1 p = fs w2 p.

(** Library contract: what the library answers does not depend on what was
    logged or displayed, and the logging, inspection and plotting calls
    return and change nothing else. *)
Hypothesis lib_respects_sim : forall e w1 w2,
  sim w1 w2 ->
  (lib e w1).1 = (lib e w2).1 /\ sim (lib e w1).2 (lib e w2).2.

Hypothesis side_calls_idle : forall e w,
  is_side_call e = true ->
  (exists v, (lib e w).1 = Returns v) /\ sim (lib e w).2 w.

(** A statement that assigns nothing and only makes such calls finishes,
    unless it meets an unbound name, and leaves the session as it was up to
    the log and the display. *)
Lemma run_stmt_idle p : forall c k o k',
  stores_sat (fun _ => False) p ->
  events_sat (fun e => is_side_call e = true) p ->
  run_stmt lib c p k = (o, k') ->
  (o = Finished \/ exists x, o = Raised (NameError x)) /\
  agree sim k' k /\
  exists new, log k' = log k ++ new /\ Forall (fun en => cell en = c) new.
Proof using sim_equiv side_calls_idle.
  induction p as [|e cont IH|x cont IH|x v cont IH];
    intros c k o k' Hst Hev Hrun; unfold agree; simpl in *.
  - injection Hrun as <- <-. split_and!; [by left|done..|].
    exists []. by rewrite app_nil_r.
  - destruct Hev as [He Hev].
    destruct (side_calls_idle e (world k) He) as [[v Hv] Hs].
    destruct (lib e (world k)) as [r w']. simpl in Hv, Hs. subst r.
    apply IH in Hrun as (Ho & (Hns & Hb & Hw) & new & Hl & Hc); [|done..].
    simpl in *. split_and!; try done.
    + by transitivity w'.
    + exists (MkEntry c e (Returns v) w' :: new).
      rewrite Hl, <- app_assoc. split; [done|]. by constructor.
  - destruct (ns k !! x) as [v|].
    + by apply IH in Hrun.
    + injection Hrun as <- <-. split_and!; [right; by eexists|done..|].
      exists []. by rewrite app_nil_r.
  - by destruct Hst.
Qed.

Lemma run_stmts_idle ps : forall c k o k',
  Forall (stores_sat (fun _ => False)) ps ->
  Forall (events_sat (fun e => is_side_call e = true)) ps ->
  run_stmts lib c ps k = (o, k') ->
  (o = Finished \/ exists x, o = Raised (NameError x)) /\
  agree sim k' k /\
  exists new, log k' = log k ++ new /\ Forall (fun en => cell en = c) new.
Proof using sim_equiv side_calls_idle.
  induction ps as [|p ps IH]; intros c k o k' Hst Hev Hrun;
    unfold agree; simpl in *.
  - injection Hrun as <- <-. split_and!; [by left|done..|].
    exists []. by rewrite app_nil_r.
  - apply Forall_cons in Hst as [Hst1 Hst].
    apply Forall_cons in Hev as [Hev1 Hev].
    destruct (run_stmt lib c p k) as [[|e1] k1] eqn:E1.
    + apply run_stmt_idle in E1
        as (_ & (Hns1 & Hb1 & Hw1) & n1 & Hl1 & Hc1); [|done..].
      apply IH in Hrun as (Ho & (Hns & Hb & Hw) & n2 & Hl & Hc); [|done..].
      split_and!; try done; try congruence.
      * by transitivity (world k1).
      * exists (n1 ++ n2). rewrite Hl, Hl1, <- app_assoc.
        split; [done|]. by apply Forall_app.
    + injection Hrun as <- <-. by apply run_stmt_idle in E1.
Qed.

(** Leaving out a cell of that kind changes nothing else, in any notebook
    whose run meets no unbound name. *)
Lemma skip_idle_cell cells i ps w :
  cells !! i = Some (Code ps) ->
  Forall (stores_sat (fun _ => False)) ps ->
  Forall (events_sat (fun e => is_side_call e = true)) ps ->
  (forall x, (run_all lib cells w).1 <> Raised (NameError x)) ->
  let '(o1, k1) := run_all lib cells w in
  let '(o2, k2) := run_all lib (skip_cell i cells) w in
  o1 = o2 /\
  ns k1 = ns k2 /\
  binds k1 = binds k2 /\
  sim (world k1) (world k2) /\
  fs (world k1) fits_path = fs (world k2) fits_path /\
  exists before side rest1 rest2,
    log k1 = before ++ side ++ rest1 /\
    log k2 = before ++ rest2 /\
    Forall (fun en => cell en = i) side /\
    map answer rest1 = map answer rest2.
Proof using sim_equiv sim_files lib_respects_sim side_calls_idle.
  intros Hi Hst Hev.
  assert (i < length cells) as Hlt by (by eapply lookup_lt_Some).
  assert (run_all lib cells w =
          run_cells lib 0 (take i cells ++ Code ps :: drop (S i) cells)
            (fresh_kernel w)) as ->.
  { unfold run_all. by rewrite take_drop_middle. }
  assert (run_all lib (skip_cell i cells) w =
          run_cells lib 0 (take i cells ++ Markdown :: drop (S i) cells)
            (fresh_kernel w)) as ->.
  { unfold run_all, skip_cell. by rewrite insert_take_drop. }
  rewrite !run_cells_app.
  rewrite length_take, Nat.min_l by lia. simpl.
  destruct (run_cells lib 0 (take i cells) (fresh_kernel w)) as [[|e] k0].
  2:{ intros _. split_and!; try done. exists (log k0), [], [], [].
      rewrite !app_nil_r. by split_and!. }
  destruct (run_stmts lib i ps k0) as [oc kc] eqn:Hc.
  apply run_stmts_idle in Hc
    as (Ho & (Hns & Hb & Hw) & side & Hl & Hside); [|done..].
  destruct Ho as [->|[x ->]]; [|intros Hno; by destruct (Hno x)].
  intros _.
  pose proof (run_cells_sim lib sim lib_respects_sim (drop (S i) cells)
                (S i) kc k0) as Hsim.
  destruct (run_cells lib (S i) (drop (S i) cells) kc) as [o1 k1].
  destruct (run_cells lib (S i) (drop (S i) cells) k0) as [o2 k2].
  destruct Hsim as (Ho & (Hns' & Hb' & Hw') & n1 & n2 & L1 & L2 & Hn);
    [by split_and!|].
  simpl in *. split_and!; try done; [by apply sim_files|].
  exists (log k0), side, n1, n2. split_and!; try done.
  by rewrite L1, Hl, <- app_assoc.
Qed.

(** X9. The logging, inspection and plotting cells are optional in the same
    sense as the widget cell.  Leave out cell 3 ([setup_logging]), 13
    ([info]), 15 ([display_psf]) or 17 ([figure], [display_profiles]): if
    these calls return and change only what is logged or displayed, the run
    ends the same way, with the same variables and assignments (so the same
    [mono_psf]), the same file content at './mono_psf_1.2um.fits', and the
    same answers to all other operations.  None of these cells assigns a
    variable, and no later cell uses what they return. *)
Theorem side_cells_are_optional i w :
  i ∈ [3; 13; 15; 17] ->
  let '(o1, k1) := run_all lib notebook w in
  let '(o2, k2) := run_all lib (skip_cell i notebook) w in
  o1 = o2 /\
  ns k1 = ns k2 /\
  binds k1 = binds k2 /\
  sim (world k1) (world k2) /\
  fs (world k1) fits_path = fs (world k2) fits_path /\
  exists before side rest1 rest2,
    log k1 = before ++ side ++ rest1 /\
    log k2 = before ++ rest2 /\
    Forall (fun en => cell en = i) side /\
    map answer rest1 = map answer rest2.
Proof.
  intros Hi.
  assert (forall x, (run_all lib notebook w).1 <> Raised (NameError x)) as Hno.
  { destruct (run_all lib notebook w) as [o k] eqn:H.
    by destruct (run_all_ops lib _ _ _ H) as (_ & _ & Hno). }
  repeat (apply elem_of_cons in Hi as [->|Hi]);
    [ apply (skip_idle_cell notebook 3 cell_logging)
    | apply (skip_idle_cell notebook 13 cell_info)
    | apply (skip_idle_cell notebook 15 cell_display_psf)
    | apply (skip_idle_cell notebook 17 cell_display_profiles)
    | by apply elem_of_nil in Hi ];
    try done;
    repeat (apply Forall_cons; split); try apply Forall_nil;
    simpl; by repeat split.
Qed.

End SideCells.

Lemma mock_side_calls_idle e w :
  is_side_call e = true ->
  (exists v, (Mock.lib e w).1 = Returns v) /\ (Mock.lib e w).2 = w.
Proof.
  intros He. destruct e as [| | | | | |recv name args kwargs]; try done.
  simpl in He. apply bool_decide_eq_true in He.
  repeat (apply elem_of_cons in He as [->|He]);
    try (split; [by eexists | done]).
  by apply elem_of_nil in He.
Qed.

Lemma side_cells_are_optional_witness :
  Mock.fs (world (run_all Mock.lib notebook Mock.w0).2) fits_path
    = Mock.fs (world (run_all Mock.lib (skip_cell 15 notebook) Mock.w0).2)
        fits_path.
Proof.
  assert (15 ∈ [3; 13; 15; 17]) as Hi by by_compute.
  pose proof (side_cells_are_optional Mock.lib Mock.fs eq eq_equivalence
                (fun w1 w2 p (H : w1 = w2) => f_equal (fun w => Mock.fs w p) H)
                mock_respects_eq mock_side_calls_idle 15 Mock.w0 Hi) as H.
  destruct (run_all Mock.lib notebook Mock.w0) as [o1 k1].
  destruct (run_all Mock.lib (skip_cell 15 notebook) Mock.w0) as [o2 k2].
  by destruct H as (_ & _ & _ & _ & Hfs & _).
Defined.
